(** * Rich text migration: HTML nodes to Kontent.ai rich text

    A shallow embedding of the two migration scripts of the repository:

    - the callback pipeline ([transformNodeToMapiRichText], its attribute
      allow-list and [serializeKnownAttributes]), which walks the parsed
      tree with [traverseAndTransformNodesAsync];
    - the registry pipeline ([transformers], with entries for [i] and
      [img]), which walks it with [nodesToHTMLAsync].

    Asynchronous code is modelled in a writer monad: a computation is the
    way its promise settles, together with the externally visible events it
    emitted (HTTP requests, storage-client requests, [console.error]
    lines).  The network, the URL parser and the storage client are
    external: they are oracles passed in as records, and the same request
    settles the same way whenever it is made.  The traversal engine belongs
    to the rich-text-resolver package; it is modelled from sections 4.1, 4.4
    and 5 of the specification, with the order in which sibling tasks
    complete left open. *)

From Stdlib Require Import Ascii String.
From stdpp Require Import base option list strings gmap.

Local Open Scope string_scope.

(** ** Strings as JavaScript sees them *)

(** The double quote character, as a one-character string. *)
Definition dq : string := String (Ascii.ascii_of_nat 34) EmptyString.

(** [`${v}`] for a value of type [string | undefined]. *)
Definition template (v : option string) : string :=
  match v with
  | Some s => s
  | None => "undefined"
  end.

(** Truthiness of a [string | undefined]: [undefined] and the empty string
    are falsy. *)
Definition truthy (v : option string) : bool :=
  match v with
  | Some (String _ _) => true
  | _ => false
  end.

(** [v || d] for [v : string | undefined]. *)
Definition or_else (v : option string) (d : string) : string :=
  match v with
  | Some (String c s) => String c s
  | _ => d
  end.

(** [s.split(sep)] for a one-character separator: never empty. *)
Fixpoint split (sep : ascii) (s : string) : list string :=
  match s with
  | EmptyString => [EmptyString]
  | String c s' =>
      if Ascii.eqb c sep then EmptyString :: split sep s'
      else match split sep s' with
           | seg :: rest => String c seg :: rest
           | [] => [String c EmptyString]
           end
  end.

(** [a.pop()], as far as its result goes: the last element, [undefined] on
    an empty array. *)
Definition pop (a : list string) : option string := last a.

(** [a.join(sep)] on an array of strings. *)
Definition join (sep : string) (a : list string) : string := String.concat sep a.

(** [a.includes(x)] on an array of strings. *)
Definition includes (a : list string) (x : string) : bool :=
  existsb (String.eqb x) a.

Definition slash : ascii := Ascii.ascii_of_nat 47.

(** ** Node model *)

(** [Record<string, string | undefined>], as the list [Object.entries]
    walks: keys in iteration order, each at most once. *)
Definition Attributes : Type := list (string * option string).

(** [attributes[key]]: [undefined] when the key is missing or when its
    value is [undefined]. *)
Fixpoint get (attributes : Attributes) (key : string) : option string :=
  match attributes with
  | [] => None
  | (k, v) :: rest => if String.eqb k key then v else get rest key
  end.

#[local] Unset Elimination Schemes.
Inductive DomNode : Type :=
| DomTextNode (content : string)
| DomHtmlNode (tagName : string) (attributes : Attributes) (children : list DomNode).
#[local] Set Elimination Schemes.

Definition isElement (node : DomNode) : bool :=
  match node with
  | DomHtmlNode _ _ _ => true
  | DomTextNode _ => false
  end.

Definition node_attributes (node : DomNode) : Attributes :=
  match node with
  | DomHtmlNode _ a _ => a
  | DomTextNode _ => []
  end.

(** ** Attribute filter *)

Definition allowedRichTextElementAttributes : list string :=
  [ "data-item-id";
    "data-item-external-id";
    "data-item-codename";
    "data-asset-id";
    "data-asset-external-id";
    "data-asset-codename";
    "data-new-window";
    "title";
    "target";
    "href";
    "data-image-id";
    "data-rel";
    "data-type";
    "data-codename";
    "data-id";
    "data-external-id";
    "src";
    "type";
    "data-id";
    "data-email-address";
    "data-email-subject";
    "data-phone-number" ].

(** The [.filter(([key]) => ...)] stage of [serializeKnownAttributes]. *)
Definition knownAttributes (attributes : Attributes) : Attributes :=
  List.filter (fun '(key, _) => includes allowedRichTextElementAttributes key)
    attributes.

(** The [.map(([key, value]) => ...)] stage: one [key="value"] token. *)
Definition attributeToken (entry : string * option string) : string :=
  let '(key, value) := entry in key ++ "=" ++ dq ++ template value ++ dq.

Definition serializeKnownAttributes (attributes : Attributes) : string :=
  join " " (map attributeToken (knownAttributes attributes)).


(** ** Promises and observable events *)

(** What JavaScript code throws or rejects with: a bare string (as in
    [reject("...")]) or an [Error] object with a name and a message. *)
Inductive Thrown : Type :=
| ThrownString (reason : string)
| ThrownError (name message : string).

(** How a promise ends.  [Pending] is a promise that never settles. *)
Inductive Outcome (A : Type) : Type :=
| Fulfilled (value : A)
| Rejected (reason : Thrown)
| Pending.
Arguments Fulfilled {A} value.
Arguments Rejected {A} reason.
Arguments Pending {A}.

(** [axios.get(url, { responseType: "arraybuffer" })] *)
Record AxiosResponse : Type := {
  response_data : list Init.Byte.byte;
  response_headers : list (string * option string)
}.

(** [uploadBinaryFile().withData(...)] *)
Record BinaryFileData : Type := {
  binaryData : list Init.Byte.byte;
  contentLength : nat;
  contentType : string;
  filename : string
}.

Record FileReference : Type := {
  file_reference_id : option string;
  file_reference_type : string
}.

Record AssetDescription : Type := {
  language_codename : string;
  description : string
}.

(** [addAsset().withData(...)] *)
Record AssetData : Type := {
  file_reference : FileReference;
  title : string;
  descriptions : list AssetDescription
}.

(** [uploadAssetFromUrl().withData(...)]; the optional asset properties the
    migration sets to [undefined] are left out. *)
Record AssetFromUrlData : Type := {
  binaryFile_filename : string;
  fileUrl : string;
  asset_title : string;
  asset_descriptions : list AssetDescription
}.

(** A response of the storage client, reduced to the [data.id] the
    migrations read. *)
Record IdResponse : Type := { data_id : string }.

Inductive Event : Type :=
| AxiosGet (url : string)
| UploadBinaryFile (d : BinaryFileData)
| AddAsset (d : AssetData)
| UploadAssetFromUrl (d : AssetFromUrlData)
| ConsoleError (label : string) (error : Thrown).

(** The storage client ([ManagementClient]): each request builder, once
    given its data and turned into a promise, settles in some way. *)
Record ManagementClient : Type := {
  uploadBinaryFile : BinaryFileData -> Outcome IdResponse;
  addAsset : AssetData -> Outcome IdResponse;
  uploadAssetFromUrl : AssetFromUrlData -> Outcome IdResponse
}.

(** The platform under the callback pipeline: the HTTP client, and the
    [pathname] of [new URL(s)], [None] when the constructor throws its
    [TypeError]. *)
Record Platform : Type := {
  axios_get : string -> Outcome AxiosResponse;
  URL_pathname : string -> option string
}.

(** An asynchronous computation: how it settles and what it emitted. *)
Record Async (A : Type) : Type := MkAsync {
  outcome : Outcome A;
  events : list Event
}.
Arguments MkAsync {A} outcome events.
Arguments outcome {A} _.
Arguments events {A} _.

Definition resolved {A} (a : A) : Async A := MkAsync (Fulfilled a) [].
Definition throw {A} (e : Thrown) : Async A := MkAsync (Rejected e) [].

#[global] Instance Async_ret : MRet Async := fun A a => resolved a.

(** [await m] followed by the rest of the function. *)
#[global] Instance Async_bind : MBind Async := fun A B k m =>
  match outcome m with
  | Fulfilled a => MkAsync (outcome (k a)) (events m ++ events (k a))
  | Rejected e => MkAsync (Rejected e) (events m)
  | Pending => MkAsync Pending (events m)
  end.

#[global] Instance Async_fmap : FMap Async := fun A B f m =>
  a ← m; mret (f a).

(** [try { body } catch (error) { handler }] *)
Definition try_catch {A} (body : Async A) (handler : Thrown -> Async A) : Async A :=
  match outcome body with
  | Rejected e => MkAsync (outcome (handler e)) (events body ++ events (handler e))
  | _ => body
  end.

(** An external call: it is observed, and settles as the oracle says. *)
Definition call {A} (ev : Event) (result : Outcome A) : Async A :=
  MkAsync result [ev].

Definition console_error (label : string) (error : Thrown) : Async unit :=
  MkAsync (Fulfilled tt) [ConsoleError label error].

(** ** The callback pipeline *)

Record Context : Type := { client : ManagementClient }.

(** [context?.client.METHOD().withData(d).toPromise()]: without a context
    the optional chain yields [undefined] and nothing is sent. *)
Definition optional_call (context : option Context) (ev : Event)
    (method : ManagementClient -> Outcome IdResponse) : Async (option IdResponse) :=
  match context with
  | Some ctx => Some <$> call ev (method (client ctx))
  | None => mret None
  end.

(** [new URL(s).pathname] inside a [try] block. *)
Definition pathname_of (P : Platform) (s : string) : Async string :=
  match URL_pathname P s with
  | Some p => mret p
  | None => throw (ThrownError "TypeError" "Invalid URL")
  end.

Definition transformNodeToMapiRichText (P : Platform)
    (node : DomNode) (processedItems : list string) (context : option Context)
  : Async (list string) :=
  match node with
  | DomHtmlNode tagName attributes _ =>
      if String.eqb tagName "img" && truthy (get attributes "src") then
        let src := template (get attributes "src") in
        try_catch
          (response ← call (AxiosGet src) (axios_get P src);
           let data := response_data response in
           let contentType := get (response_headers response) "content-type" in
           pathname ← pathname_of P src;
           let filename := or_else (pop (split slash pathname)) "unknown-file" in
           let upload :=
             {| binaryData := data;
                contentLength := length data;
                contentType := or_else contentType "application/octet-stream";
                filename := filename |} in
           uploadResponse ← optional_call context (UploadBinaryFile upload)
                              (fun c => uploadBinaryFile c upload);
           let fileReference :=
             {| file_reference_id := data_id <$> uploadResponse;
                file_reference_type := "internal" |} in
           let asset :=
             {| file_reference := fileReference;
                title := filename;
                descriptions :=
                  [ {| language_codename := "default";
                       description := "Auto-generated asset" |} ] |} in
           assetResponse ← optional_call context (AddAsset asset)
                             (fun c => addAsset c asset);
           mret [ "<figure data-asset-id=" ++ dq
                    ++ template (data_id <$> assetResponse) ++ dq
                    ++ "></figure>" ])
          (fun error =>
             _ ← console_error "Error processing image node:" error;
             mret [ "<" ++ tagName ++ "/>" ])
      else
        (* if (node.tagName === "someothertag") { }: an empty block *)
        let innerHtml := join EmptyString processedItems in
        mret [ "<" ++ tagName ++ " " ++ serializeKnownAttributes attributes
                 ++ ">" ++ innerHtml ++ "</" ++ tagName ++ ">" ]
  | DomTextNode content => mret [ content ]
  end.

(** ** The registry pipeline *)

(** [new Promise(executor)]: the executor settles the promise through
    [resolve] and [reject]; once settled, later calls change nothing. *)
Definition resolve {A} (value : A) (state : Outcome A) : Outcome A :=
  match state with
  | Pending => Fulfilled value
  | settled => settled
  end.

Definition reject {A} (reason : Thrown) (state : Outcome A) : Outcome A :=
  match state with
  | Pending => Rejected reason
  | settled => settled
  end.

(** [(node, children, context) => Promise<string>] *)
Definition NodeToHtmlAsync : Type :=
  DomNode -> string -> option ManagementClient -> Async string.

Definition transformers_i : NodeToHtmlAsync :=
  fun _ children _ => mret ("<em>" ++ children ++ "</em>").

Definition figure (assetId : option string) : string :=
  "<figure data-asset-id=" ++ dq ++ template assetId ++ dq ++ "></figure>".

Definition transformers_img : NodeToHtmlAsync :=
  fun node _ client =>
    let state : Outcome string := Pending in
    match client with
    | None => MkAsync (reject (ThrownString "Client is not provided") state) []
    | Some client =>
        let src := get (node_attributes node) "src" in
        if negb (truthy src) then
          MkAsync (reject (ThrownString "Invalid IMG tag: no src attribute.") state) []
        else
          let src := template src in
          let fileName := or_else (pop (split slash src)) "untitled_file" in
          let request :=
            {| binaryFile_filename := fileName;
               fileUrl := src;
               asset_title := fileName;
               asset_descriptions :=
                 [ {| language_codename := "default";
                      description :=
                        or_else (get (node_attributes node) "alt") "No description" |} ] |} in
          (* .toPromise().then(res => res.data.id).catch(err => reject(err)),
             then resolve(...) with whatever the chain produced *)
          match uploadAssetFromUrl client request with
          | Fulfilled res =>
              MkAsync (resolve (figure (Some (data_id res))) state)
                [UploadAssetFromUrl request]
          | Rejected err =>
              MkAsync (resolve (figure None) (reject err state))
                [UploadAssetFromUrl request]
          | Pending => MkAsync state [UploadAssetFromUrl request]
          end
    end.

Definition transformers : gmap string NodeToHtmlAsync :=
  <["i" := transformers_i]> (<["img" := transformers_img]> ∅).

(** ** The traversal engine *)

(** The order in which the sibling tasks of one array complete, and below
    it one schedule per sibling for that sibling's children.  Any value is
    a schedule: see [completionOrder]. *)
#[local] Unset Elimination Schemes.
Inductive Sched : Type :=
| MkSched (order : list nat) (subs : list Sched).
#[local] Set Elimination Schemes.

Definition order (s : Sched) : list nat := let 'MkSched o _ := s in o.
Definition subs (s : Sched) : list Sched := let 'MkSched _ ss := s in ss.

(** Document order everywhere. *)
Definition inOrder : Sched := MkSched [] [].

(** The completion order a schedule stands for among [n] tasks: the valid
    indices it lists, each once, then the tasks it does not mention, in
    document order. *)
Definition completionOrder (n : nat) (o : list nat) : list nat :=
  let listed := remove_dups (List.filter (fun i => Nat.ltb i n) o) in
  listed ++ list_difference (seq 0 n) listed.

(** Modelled from the spec: [Promise.all]-style joining of sibling tasks,
    which the engine of the rich-text-resolver package (not part of the
    sources) performs.  Tasks complete in any order; each result is stored
    at the task's own position; the first rejection to happen rejects the
    join, while the other tasks still run. *)
Definition complete {A} (tasks : list (Async A))
    (acc : Async (list (option A))) (i : nat) : Async (list (option A)) :=
  match tasks !! i with
  | None => acc
  | Some task =>
      MkAsync
        match outcome acc, outcome task with
        | Fulfilled slots, Fulfilled a => Fulfilled (<[i := Some a]> slots)
        | Fulfilled slots, Rejected e => Rejected e
        | Fulfilled slots, Pending => Fulfilled slots
        | settled, _ => settled
        end
        (events acc ++ events task)
  end.

(** Modelled from the spec: the join itself (sections 4.1 and 5): every
    task is run, in the completion order [o] stands for; the join is
    fulfilled with the results by position when every slot has been filled,
    rejected with the first rejection, and never settles otherwise. *)
Definition promiseAll {A} (o : list nat) (tasks : list (Async A)) : Async (list A) :=
  let n := length tasks in
  let final :=
    foldl (complete tasks) (MkAsync (Fulfilled (replicate n None)) [])
      (completionOrder n o) in
  MkAsync
    match outcome final with
    | Fulfilled slots =>
        match mapM (fun slot => slot) slots with
        | Some results => Fulfilled results
        | None => Pending
        end
    | Rejected e => Rejected e
    | Pending => Pending
    end
    (events final).

(** [results.flat()] on an array of arrays of strings. *)
Definition flat (results : list (list string)) : list string :=
  @List.concat string results.

(** [(node, processedItems, context) => Promise<V[]>] *)
Definition TransformNodeFunctionAsync (C : Type) : Type :=
  DomNode -> list string -> option C -> Async (list string).

Section Engine.
Context {C : Type}.
Variable transform : TransformNodeFunctionAsync C.
Variable context : option C.

(** Modelled from the spec: one task per sibling of a fragment, each
    with its own sub-schedule (the engine starts them all at once). *)
Fixpoint tasksOf (task : Sched -> DomNode -> Async (list string))
    (ss : list Sched) (nodes : list DomNode) : list (Async (list string)) :=
  match nodes with
  | [] => []
  | node :: rest => task (hd inOrder ss) node :: tasksOf task (tl ss) rest
  end.

(** Modelled from the spec: the sibling task of the traversal engine
    (section 4.1): children first, joined by position, then the
    transformer of the node itself. *)
Fixpoint nodeTask (s : Sched) (node : DomNode) {struct node} : Async (list string) :=
  match node with
  | DomTextNode _ => transform node [] context
  | DomHtmlNode _ _ children =>
      processedItems ← flat <$> promiseAll (order s) (tasksOf nodeTask (subs s) children);
      transform node processedItems context
  end.

(** Modelled from the spec: [traverseAndTransformNodesAsync] of the
    rich-text-resolver package, which is not part of the sources: the
    top-level entry over a fragment, results flattened in document
    order. *)
Definition traverseAndTransformNodesAsync (s : Sched) (nodes : list DomNode)
  : Async (list string) :=
  flat <$> promiseAll (order s) (tasksOf nodeTask (subs s) nodes).

(** A node whose task, once fulfilled under a schedule, is fulfilled with
    the same value under every schedule. *)
Definition scheduleFree (node : DomNode) : Prop :=
  ∀ s s' v, outcome (nodeTask s node) = Fulfilled v →
            outcome (nodeTask s' node) = Fulfilled v.
End Engine.

(** Modelled from the spec: the default transformer of section 4.1, for a
    tag without an entry in the registry. *)
Definition defaultTransformer (node : DomNode) (innerHtml : string) : string :=
  match node with
  | DomHtmlNode tagName attributes _ =>
      "<" ++ tagName ++ " " ++ serializeKnownAttributes attributes ++ ">"
        ++ innerHtml ++ "</" ++ tagName ++ ">"
  | DomTextNode content => content
  end.

(** Modelled from the spec: the callback [nodesToHTMLAsync] of the
    rich-text-resolver package runs at each node (sections 4.1 and 4.4):
    lookup by exact tag name, the default transformer without an entry,
    text nodes verbatim. *)
Definition registryTransform (registry : gmap string NodeToHtmlAsync)
  : TransformNodeFunctionAsync ManagementClient :=
  fun node processedItems context =>
    match node with
    | DomTextNode content => mret [content]
    | DomHtmlNode tagName _ _ =>
        let children := join EmptyString processedItems in
        match (registry !! tagName : option NodeToHtmlAsync) with
        | Some transformer => (fun html => [html]) <$> transformer node children context
        | None => mret [defaultTransformer node children]
        end
    end.

(** Modelled from the spec: the entry point of the registry pipeline,
    [nodesToHTMLAsync] of the rich-text-resolver package: the traversal
    with [registryTransform], joined with no separator. *)
Definition nodesToHTMLAsync (s : Sched) (nodes : list DomNode)
    (registry : gmap string NodeToHtmlAsync) (context : option ManagementClient)
  : Async string :=
  join EmptyString <$> traverseAndTransformNodesAsync (registryTransform registry) context s nodes.

(** ** The two migrations, from the parsed nodes to the rich text value *)

(** [traverseAndTransformNodesAsync(parsedRichText,
    transformNodeToMapiRichText, context).then(result => result.join(""))] *)
Definition transformedRichText (P : Platform) (s : Sched)
    (parsedRichText : list DomNode) (context : option Context) : Async string :=
  join EmptyString <$>
    traverseAndTransformNodesAsync (transformNodeToMapiRichText P) context s parsedRichText.

(** [nodesToHTMLAsync(nodes, transformers, apiClient)] *)
Definition transformedRichText_registry (s : Sched) (nodes : list DomNode)
    (apiClient : ManagementClient) : Async string :=
  nodesToHTMLAsync s nodes transformers (Some apiClient).

(** ** What the specification says, in its own words *)

(** The allow-list as section 6 of the specification prints it. *)
Definition specAllowList : list string :=
  [ "data-item-id"; "data-item-external-id"; "data-item-codename";
    "data-asset-id"; "data-asset-external-id"; "data-asset-codename";
    "data-new-window"; "title"; "target"; "href"; "data-image-id";
    "data-rel"; "data-type"; "data-codename"; "data-id";
    "data-external-id"; "src"; "type"; "data-email-address";
    "data-email-subject"; "data-phone-number" ].

(** Section 4.3: attributes with an absent value are treated as not
    present. *)
Definition omitAbsent (attributes : Attributes) : Attributes :=
  List.filter (fun '(_, value) => match value with Some _ => true | None => false end)
    attributes.

(** One attribute as markup prints it: a space, then [key="value"]; an
    attribute without a value is not printed (section 4.3). *)
Definition markupAttribute (entry : string * option string) : string :=
  match entry with
  | (key, Some value) => " " ++ key ++ "=" ++ dq ++ value ++ dq
  | (_, None) => EmptyString
  end.

(** The opening tag of an element as markup prints it:
    [<tag k="v" ...>], with no space before the closing bracket. *)
Definition openingTag (tagName : string) (attributes : Attributes) : string :=
  "<" ++ tagName ++ String.concat EmptyString (map markupAttribute attributes) ++ ">".

(** The markup of a node as the testable properties print it:
    [<tag k="v" ...>children</tag>], text nodes verbatim. *)
Fixpoint outerHtml (node : DomNode) : string :=
  match node with
  | DomTextNode content => content
  | DomHtmlNode tagName attributes children =>
      openingTag tagName attributes
        ++ String.concat EmptyString (map outerHtml children)
        ++ "</" ++ tagName ++ ">"
  end.

(** The path has a slash in it. *)
Definition hasSlash (path : string) : bool :=
  existsb (Ascii.eqb slash) (list_ascii_of_string path).

(** The final segment of a path: what follows its last slash. *)
Fixpoint finalSegment (path : string) : string :=
  match path with
  | EmptyString => EmptyString
  | String c rest =>
      if hasSlash rest then finalSegment rest
      else if Ascii.eqb c slash then rest
      else String c rest
  end.

(** ** The requests of the image branch, by name *)

(** The file name [transformNodeToMapiRichText] derives from a path. *)
Definition imageFilename (pathname : string) : string :=
  or_else (pop (split slash pathname)) "unknown-file".

(** The data it gives to [uploadBinaryFile]. *)
Definition binaryFileRequest (response : AxiosResponse) (pathname : string)
  : BinaryFileData :=
  {| binaryData := response_data response;
     contentLength := length (response_data response);
     contentType :=
       or_else (get (response_headers response) "content-type")
         "application/octet-stream";
     filename := imageFilename pathname |}.

(** The data it gives to [addAsset]. *)
Definition assetRequest (uploadId : option string) (pathname : string) : AssetData :=
  {| file_reference :=
       {| file_reference_id := uploadId; file_reference_type := "internal" |};
     title := imageFilename pathname;
     descriptions :=
       [ {| language_codename := "default"; description := "Auto-generated asset" |} ] |}.

(** The data [transformers.img] gives to [uploadAssetFromUrl]. *)
Definition assetFromUrlRequest (src : string) (alt : option string) : AssetFromUrlData :=
  {| binaryFile_filename := or_else (pop (split slash src)) "untitled_file";
     fileUrl := src;
     asset_title := or_else (pop (split slash src)) "untitled_file";
     asset_descriptions :=
       [ {| language_codename := "default";
            description := or_else alt "No description" |} ] |}.

(** ** What can go wrong, and where *)

(** The ways the work of the image branch fails with [e]: the fetch, the
    URL constructor, the byte upload, or the asset registration. *)
Inductive imageFailure (P : Platform) (context : option Context) (src : string)
    (e : Thrown) : Prop :=
| fetch_fails :
    axios_get P src = Rejected e →
    imageFailure P context src e
| url_fails response :
    axios_get P src = Fulfilled response →
    URL_pathname P src = None →
    e = ThrownError "TypeError" "Invalid URL" →
    imageFailure P context src e
| upload_fails c response pathname :
    context = Some {| client := c |} →
    axios_get P src = Fulfilled response →
    URL_pathname P src = Some pathname →
    uploadBinaryFile c (binaryFileRequest response pathname) = Rejected e →
    imageFailure P context src e
| registration_fails c response pathname u :
    context = Some {| client := c |} →
    axios_get P src = Fulfilled response →
    URL_pathname P src = Some pathname →
    uploadBinaryFile c (binaryFileRequest response pathname) = Fulfilled u →
    addAsset c (assetRequest (Some (data_id u)) pathname) = Rejected e →
    imageFailure P context src e.

(** Every external call of the callback pipeline settles sooner or later. *)
Definition responsive (P : Platform) (context : option Context) : Prop :=
  (∀ url, axios_get P url ≠ Pending)
  ∧ ∀ c, context = Some {| client := c |} →
         (∀ d, uploadBinaryFile c d ≠ Pending) ∧ (∀ d, addAsset c d ≠ Pending).

(** [node] is [tree] or one of its descendants. *)
Inductive occursIn (node : DomNode) : DomNode → Prop :=
| occurs_here : occursIn node node
| occurs_below tagName attributes children child :
    child ∈ children →
    occursIn node child →
    occursIn node (DomHtmlNode tagName attributes children).

(** ** Nodes by the branch they take *)

(** The guard of the image branch of [transformNodeToMapiRichText]. *)
Definition isImageWithSrc (node : DomNode) : bool :=
  match node with
  | DomHtmlNode tagName attributes _ =>
      String.eqb tagName "img" && truthy (get attributes "src")
  | DomTextNode _ => false
  end.

(** Every attribute is allow-listed and has a value. *)
Definition allowListedOnly (attributes : Attributes) : bool :=
  forallb (fun '(key, value) =>
             includes allowedRichTextElementAttributes key
             && match value with Some _ => true | None => false end)
    attributes.

(** A tree in which every element is re-emitted by the default branch,
    carries allow-listed attributes only, and at least one of them. *)
Fixpoint reemittedWithAttributes (node : DomNode) : bool :=
  match node with
  | DomTextNode _ => true
  | DomHtmlNode _ attributes children =>
      negb (isImageWithSrc node)
      && allowListedOnly attributes
      && match attributes with [] => false | _ :: _ => true end
      && forallb reemittedWithAttributes children
  end.

(** ** Sample environments *)

Definition sampleResponse : AxiosResponse :=
  {| response_data := [Init.Byte.x89; Init.Byte.x50; Init.Byte.x4e; Init.Byte.x47];
     response_headers := [("content-type", Some "image/png")] |}.

(** A storage client whose byte upload returns [abc123] and whose asset
    registration returns [asset-9]. *)
Definition sampleClient : ManagementClient :=
  {| uploadBinaryFile := fun _ => Fulfilled {| data_id := "abc123" |};
     addAsset := fun _ => Fulfilled {| data_id := "asset-9" |};
     uploadAssetFromUrl := fun _ => Fulfilled {| data_id := "asset-7" |} |}.

(** A storage client that is down. *)
Definition failingClient : ManagementClient :=
  {| uploadBinaryFile := fun _ => Rejected (ThrownError "SdkError" "503");
     addAsset := fun _ => Rejected (ThrownError "SdkError" "503");
     uploadAssetFromUrl := fun _ => Rejected (ThrownError "SdkError" "503") |}.

(** [new URL(s).pathname] on the URLs of the examples. *)
Definition samplePathname (s : string) : option string :=
  if String.eqb s "http://x/y/pic.png" then Some "/y/pic.png"
  else if String.eqb s "http://x/y/pic.png?v=2" then Some "/y/pic.png"
  else if String.eqb s "https://example.com" then Some "/"
  else if String.eqb s "http://x/z/logo.svg" then Some "/z/logo.svg"
  else None.

Definition samplePlatform : Platform :=
  {| axios_get := fun _ => Fulfilled sampleResponse;
     URL_pathname := samplePathname |}.

(** A platform on which every fetch throws. *)
Definition offlinePlatform : Platform :=
  {| axios_get := fun _ => Rejected (ThrownError "AxiosError" "ECONNREFUSED");
     URL_pathname := samplePathname |}.

Definition sampleContext : option Context := Some {| client := sampleClient |}.

Definition picture : DomNode :=
  DomHtmlNode "img" [("src", Some "http://x/y/pic.png")] [].

Definition logo : DomNode :=
  DomHtmlNode "img" [("src", Some "http://x/z/logo.svg")] [].

(** A storage client that names what it stores after the file. *)
Definition namingClient : ManagementClient :=
  {| uploadBinaryFile := fun d => Fulfilled {| data_id := "file-" ++ filename d |};
     addAsset := fun d => Fulfilled {| data_id := "asset-" ++ title d |};
     uploadAssetFromUrl := fun d => Fulfilled {| data_id := "asset-" ++ asset_title d |} |}.

(** The second sibling completes first. *)
Definition secondFirst : Sched := MkSched [1; 0] [].

Definition spanHi : DomNode :=
  DomHtmlNode "span" [("title", Some "x")] [DomTextNode "hi"].

(** ** Finding the blocks of the page *)

(** [node.children]: a property only element nodes have. *)
Definition node_children (node : DomNode) : option (list DomNode) :=
  match node with
  | DomHtmlNode _ _ children => Some children
  | DomTextNode _ => None
  end.

(** [node.attributes["class"] === className] *)
Definition hasClass (className : string) (node : DomNode) : bool :=
  match get (node_attributes node) "class" with
  | Some value => String.eqb value className
  | None => false
  end.

(** The [reduce] of [findNodeByClassName]: the accumulator, once set, is
    handed on. *)
Definition firstFound {A B} (f : A -> option B) (l : list A) : option B :=
  foldl (fun acc x => match acc with Some found => Some found | None => f x end)
    None l.

(** What the reducer does with one node while the accumulator is unset.
    The recursive call on the children is written here without its
    [filter(isElement)]: a text node yields nothing
    ([findInNode_element] gives the equation of the source). *)
Fixpoint findInNode (className : string) (node : DomNode) {struct node}
  : option DomNode :=
  match node with
  | DomTextNode _ => None
  | DomHtmlNode _ _ children =>
      if hasClass className node then Some node
      else firstFound (findInNode className) children
  end.

Definition findNodeByClassName (parsed : list DomNode) (className : string)
  : option DomNode :=
  firstFound (findInNode className) (List.filter isElement parsed).

(** The elements of a tree, and of a forest, in document order. *)
Fixpoint elementsOf (node : DomNode) : list DomNode :=
  match node with
  | DomTextNode _ => []
  | DomHtmlNode _ _ children => node :: flat_map elementsOf children
  end.

Definition elementsIn (nodes : list DomNode) : list DomNode :=
  flat_map elementsOf nodes.

(** ** The migrations as a whole *)

(** [addContentItem().withData(...)] *)
Record ContentItemData : Type := {
  item_name : string;
  item_type_codename : string
}.

(** The elements the builder of [upsertLanguageVariant] is asked for. *)
Inductive ElementValue : Type :=
| textElement (value : string) (element_codename : string)
| dateTimeElement (value : string) (display_timezone : string) (element_codename : string)
| richTextElement (value : string) (element_codename : string).

(** [upsertLanguageVariant().byItemId(...).byLanguageCodename(...)
    .withData(...)] *)
Record LanguageVariantData : Type := {
  byItemId : string;
  byLanguageCodename : string;
  elements : list ElementValue
}.

(** The client a migration is run with: the asset requests of
    [ManagementClient] and the two item requests [run] makes. *)
Record ApiClient : Type := {
  assets : ManagementClient;
  addContentItem : ContentItemData -> Outcome IdResponse;
  upsertLanguageVariant : LanguageVariantData -> Outcome unit
}.

(** What a migration needs besides its client: the content of a page once
    the headless browser has loaded it (any step of [fetchHtml] may throw),
    and the two parsers of the rich-text-resolver package. *)
Record Tools : Type := {
  page_content : string -> Outcome string;
  parse : string -> list DomNode;
  parseHTML : string -> list DomNode
}.

Inductive MigrationEvent : Type :=
| FetchHtml (url : string)
| Traversal (e : Event)
| AddContentItem (d : ContentItemData)
| UpsertLanguageVariant (d : LanguageVariantData).

(** A migration step: how it settles and what it did, traversal events
    included. *)
Record Migration (A : Type) : Type := MkMigration {
  result : Outcome A;
  trace : list MigrationEvent
}.
Arguments MkMigration {A} result trace.
Arguments result {A} _.
Arguments trace {A} _.

#[global] Instance Migration_ret : MRet Migration := fun A a =>
  MkMigration (Fulfilled a) [].

#[global] Instance Migration_bind : MBind Migration := fun A B k m =>
  match result m with
  | Fulfilled a => MkMigration (result (k a)) (trace m ++ trace (k a))
  | Rejected e => MkMigration (Rejected e) (trace m)
  | Pending => MkMigration Pending (trace m)
  end.

Definition throws {A} (e : Thrown) : Migration A := MkMigration (Rejected e) [].

Definition request {A} (ev : MigrationEvent) (settles : Outcome A) : Migration A :=
  MkMigration settles [ev].

(** [await] of a traversal inside [run]. *)
Definition awaitTraversal {A} (m : Async A) : Migration A :=
  MkMigration (outcome m) (Traversal <$> events m).

Definition fetchHtml (T : Tools) (url : string) : Migration string :=
  request (FetchHtml url) (page_content T url).

(** [node.children[0]?.type === "text" ? node.children[0].content :
    fallback], for a [node] that may be [undefined] or, the cast
    notwithstanding, a text node: reading [children] of [undefined], or
    index 0 of the missing [children] of a text node, throws. *)
Definition firstText (node : option DomNode) (fallback : string) : Migration string :=
  match node with
  | None =>
      throws (ThrownError "TypeError"
                "Cannot read properties of undefined (reading 'children')")
  | Some node =>
      match node_children node with
      | None =>
          throws (ThrownError "TypeError"
                    "Cannot read properties of undefined (reading '0')")
      | Some children =>
          mret match children !! 0 with
               | Some (DomTextNode content) => content
               | _ => fallback
               end
      end
  end.

(** [node?.children] *)
Definition childrenOf (node : option DomNode) : option (list DomNode) :=
  match node with
  | Some node => node_children node
  | None => None
  end.

(** [node?.children[i]] *)
Definition childAt (i : nat) (node : option DomNode) : option DomNode :=
  match childrenOf node with
  | Some children => children !! i
  | None => None
  end.

Definition pageUrl : string := "https://migration-poc.vercel.app/".

(** [migration.run] of the callback pipeline. *)
Definition run (T : Tools) (P : Platform) (s : Sched) (apiClient : ApiClient)
  : Migration unit :=
  htmlString ← fetchHtml T pageUrl;
  let parsedHtml := parse T htmlString in
  let parsedRichText := childrenOf (findNodeByClassName parsedHtml "content__body") in
  let headingSection := findNodeByClassName parsedHtml "block__heading" in
  match parsedRichText with
  | None => throws (ThrownError "Error" "No rich text content found.")
  | Some parsedRichText =>
      let titleNode := childAt 0 headingSection in
      let dateNode := childAt 1 headingSection in
      title ← firstText titleNode "Title not found";
      date ← firstText dateNode "Date not found";
      let context := {| client := assets apiClient |} in
      transformedRichText ←
        awaitTraversal (transformedRichText P s parsedRichText (Some context));
      let item := {| item_name := title; item_type_codename := "article" |} in
      added ← request (AddContentItem item) (addContentItem apiClient item);
      let itemId := data_id added in
      let variant :=
        {| byItemId := itemId;
           byLanguageCodename := "default";
           elements :=
             [ textElement title "title";
               dateTimeElement date "UTC" "publishing_date";
               richTextElement transformedRichText "content" ] |} in
      request (UpsertLanguageVariant variant) (upsertLanguageVariant apiClient variant)
  end.

(** The markup the registry migration converts. *)
Definition htmlInput : string :=
  "<p>some normal text and <i>italic text requiring conversion from i to em tag</i></p><img class="
    ++ dq ++ "content__image" ++ dq ++ " src=" ++ dq
    ++ "https://assets-eu-01.kc-usercontent.com/a917b5bf-e2e1-011e-0a73-0b317b1e1c33/3efaba72-f8af-4e6f-ae02-15ca6d32f6b2/possessed-photography-jIBMSMs4_kA-unsplash.jpg"
    ++ dq ++ " alt=" ++ dq ++ "White robot arm offering handshake" ++ dq ++ ">".

(** [migration.run] of the registry pipeline. *)
Definition run_registry (T : Tools) (s : Sched) (apiClient : ApiClient)
  : Migration unit :=
  let nodes := parseHTML T htmlInput in
  transformedRichText ←
    awaitTraversal (nodesToHTMLAsync s nodes transformers (Some (assets apiClient)));
  let item := {| item_name := "POC Rich text"; item_type_codename := "rich_text" |} in
  added ← request (AddContentItem item) (addContentItem apiClient item);
  let itemId := data_id added in
  let variant :=
    {| byItemId := itemId;
       byLanguageCodename := "default";
       elements := [ richTextElement transformedRichText "rich_text_element" ] |} in
  request (UpsertLanguageVariant variant) (upsertLanguageVariant apiClient variant).

(** ** Measures on trees and event logs *)

(** The tree with every attribute off the allow-list removed. *)
Fixpoint withKnownAttributes (node : DomNode) : DomNode :=
  match node with
  | DomTextNode content => DomTextNode content
  | DomHtmlNode tagName attributes children =>
      DomHtmlNode tagName (knownAttributes attributes)
        (map withKnownAttributes children)
  end.

(** The number of fetches in an event log. *)
Definition fetches (log : list Event) : nat :=
  sum_list_with (fun ev => match ev with AxiosGet _ => 1 | _ => 0 end) log.

(** The number of nodes of a tree that take the image branch. *)
Fixpoint imagesOf (node : DomNode) : nat :=
  match node with
  | DomTextNode _ => 0
  | DomHtmlNode _ _ children =>
      (if isImageWithSrc node then 1 else 0) + sum_list_with imagesOf children
  end.

(** ** A sample page *)

Definition sampleHeading : DomNode :=
  DomHtmlNode "div" [("class", Some "block__heading")]
    [ DomHtmlNode "h1" [] [DomTextNode "A robot arm"];
      DomHtmlNode "time" [] [DomTextNode "2024-05-01"] ].

Definition sampleBody : DomNode :=
  DomHtmlNode "div" [("class", Some "content__body")]
    [ DomHtmlNode "p" [("class", Some "lead")] [DomTextNode "hello"]; picture ].

Definition samplePage : list DomNode :=
  [ DomTextNode "top";
    DomHtmlNode "main" [("class", Some "content")] [sampleHeading; sampleBody] ].

(** A page with a body and no heading block. *)
Definition headlessPage : list DomNode := [sampleBody].

Definition sampleTools (page : list DomNode) : Tools :=
  {| page_content := fun _ => Fulfilled "<html>";
     parse := fun _ => page;
     parseHTML := fun _ => [DomHtmlNode "p" [] [DomTextNode "text"]; picture] |}.

Definition sampleApiClient (images : ManagementClient) : ApiClient :=
  {| assets := images;
     addContentItem := fun _ => Fulfilled {| data_id := "item-1" |};
     upsertLanguageVariant := fun _ => Fulfilled tt |}.

(** A client that stores assets and cannot create items. *)
Definition readOnlyApiClient : ApiClient :=
  {| assets := sampleClient;
     addContentItem := fun _ => Rejected (ThrownError "SdkError" "403");
     upsertLanguageVariant := fun _ => Fulfilled tt |}.

(** * Properties *)

(** ** Strings and arrays *)

Lemma includes_elem_of (a : list string) (x : string) :
  includes a x = true ↔ x ∈ a.
Proof.
  unfold includes. rewrite existsb_exists. split.
  - intros (y & Hy & Heq). apply String.eqb_eq in Heq. subst.
    by apply list_elem_of_In.
  - intros Hx. exists x. split; [by apply list_elem_of_In | apply String.eqb_refl].
Qed.

Lemma includes_bool_decide (a : list string) (x : string) :
  includes a x = bool_decide (x ∈ a).
Proof.
  destruct (includes a x) eqn:E.
  - symmetry. apply bool_decide_eq_true. by apply includes_elem_of.
  - symmetry. apply bool_decide_eq_false. intros H.
    apply includes_elem_of in H. congruence.
Qed.

(** The allow-list of the code lists [data-id] twice; as a set it is the
    list of the specification. *)
Lemma allow_list_same_names (key : string) :
  key ∈ allowedRichTextElementAttributes ↔ key ∈ specAllowList.
Proof.
  unfold allowedRichTextElementAttributes, specAllowList.
  rewrite !elem_of_cons, !elem_of_nil. tauto.
Qed.

Lemma includes_allow_list (key : string) :
  includes allowedRichTextElementAttributes key = bool_decide (key ∈ specAllowList).
Proof.
  rewrite includes_bool_decide. apply bool_decide_ext, allow_list_same_names.
Qed.

Lemma knownAttributes_spec (attributes : Attributes) :
  knownAttributes attributes
  = List.filter (fun e => bool_decide (e.1 ∈ specAllowList)) attributes.
Proof.
  unfold knownAttributes. induction attributes as [|[k v] rest IH]; [done|].
  cbn [List.filter fst]. rewrite includes_allow_list, IH. done.
Qed.

Lemma filter_sublist {A} (f : A → bool) (l : list A) :
  List.filter f l `sublist_of` l.
Proof.
  induction l as [|x l IH]; simpl; [constructor|].
  destruct (f x); by constructor.
Qed.

Lemma filter_twice {A} (f : A → bool) (l : list A) :
  List.filter f (List.filter f l) = List.filter f l.
Proof.
  induction l as [|x l IH]; simpl; [done|].
  destruct (f x) eqn:E; simpl; rewrite ?E, IH; done.
Qed.

(** ** Attribute filter *)

(** C5. The attribute filter is a total function; on every attribute
    mapping it keeps exactly the entries whose key is on the allow-list of
    the specification, in their original relative order, drops every other
    key, and prints the kept entries as [key="value"] tokens joined by
    single spaces. *)
Theorem serializeKnownAttributes_allow_list (attributes : Attributes) :
  let kept := List.filter (fun e => bool_decide (e.1 ∈ specAllowList)) attributes in
  serializeKnownAttributes attributes = String.concat " " (map attributeToken kept)
  ∧ kept `sublist_of` attributes
  ∧ (∀ e, e ∈ kept ↔ e ∈ attributes ∧ e.1 ∈ specAllowList)
  ∧ (∀ key value, attributeToken (key, Some value) = key ++ "=" ++ dq ++ value ++ dq).
Proof.
  intros kept. split; [|split; [|split]].
  - unfold serializeKnownAttributes, join. by rewrite knownAttributes_spec.
  - apply filter_sublist.
  - intros e. unfold kept. split.
    + intros He. apply list_elem_of_In, filter_In in He as [Hin He].
      apply bool_decide_eq_true in He. split; [by apply list_elem_of_In | done].
    + intros [Hin He]. apply list_elem_of_In, filter_In.
      split; [by apply list_elem_of_In | by apply bool_decide_eq_true].
  - done.
Qed.

(** C7. Filtering is idempotent: restricting a mapping to its allow-listed
    entries and filtering again gives what filtering the original mapping
    gives, both as entries and as serialized text, and the second pass
    brings no key back. *)
Theorem serializeKnownAttributes_idempotent (attributes : Attributes) :
  knownAttributes (knownAttributes attributes) = knownAttributes attributes
  ∧ serializeKnownAttributes (knownAttributes attributes)
    = serializeKnownAttributes attributes
  ∧ (∀ e, e ∈ knownAttributes (knownAttributes attributes) →
          e ∈ knownAttributes attributes ∧ e.1 ∈ specAllowList).
Proof.
  assert (Hid : knownAttributes (knownAttributes attributes) = knownAttributes attributes)
    by apply filter_twice.
  split; [done|]. split.
  - unfold serializeKnownAttributes. by rewrite Hid.
  - intros e. rewrite Hid. intros He. split; [done|].
    rewrite knownAttributes_spec in He.
    apply list_elem_of_In, filter_In in He as [_ He].
    by apply bool_decide_eq_true in He.
Qed.

(** C4, as stated, fails: an allow-listed key whose value is [undefined]
    is not omitted, it is printed with the text [undefined] as its
    value. *)
Lemma serializeKnownAttributes_undefined_counterexample :
  serializeKnownAttributes [("title", None)] = "title=" ++ dq ++ "undefined" ++ dq
  ∧ serializeKnownAttributes [("title", None)]
    ≠ serializeKnownAttributes (omitAbsent [("title", None)]).
Proof. split; [reflexivity | discriminate]. Qed.

(** C4, amended. An entry whose value is [undefined] is dropped exactly
    when its key is off the allow-list; with an allow-listed key it is
    kept, at its place, as the token [key="undefined"]. *)
Theorem serializeKnownAttributes_undefined (before after : Attributes) (key : string) :
  serializeKnownAttributes (before ++ (key, None) :: after)%list
  = if includes allowedRichTextElementAttributes key
    then String.concat " "
           (map attributeToken (knownAttributes before)
              ++ (key ++ "=" ++ dq ++ "undefined" ++ dq)%string
              :: map attributeToken (knownAttributes after))%list
    else serializeKnownAttributes (before ++ after)%list.
Proof.
  unfold serializeKnownAttributes, join, knownAttributes.
  rewrite !List.filter_app. cbn [List.filter].
  destruct (includes allowedRichTextElementAttributes key).
  - by rewrite map_app.
  - done.
Qed.

(** ** Promises *)

Lemma outcome_bind_fulfilled {A B} (m : Async A) (k : A → Async B) (v : B) :
  outcome (m ≫= k) = Fulfilled v
  ↔ ∃ a, outcome m = Fulfilled a ∧ outcome (k a) = Fulfilled v.
Proof.
  unfold mbind, Async_bind. destruct (outcome m) as [a| |]; simpl.
  - split; [by exists a | by intros (? & [= ->] & ?)].
  - split; [done | by intros (? & ? & ?)].
  - split; [done | by intros (? & ? & ?)].
Qed.

Lemma outcome_fmap_fulfilled {A B} (f : A → B) (m : Async A) (v : B) :
  outcome (f <$> m) = Fulfilled v ↔ ∃ a, outcome m = Fulfilled a ∧ v = f a.
Proof.
  unfold fmap, Async_fmap. rewrite outcome_bind_fulfilled.
  split; intros (a & Ha & Hv); exists a; split; try done.
  - by injection Hv.
  - by subst.
Qed.

Lemma completionOrder_elem_of (n : nat) (o : list nat) (i : nat) :
  i ∈ completionOrder n o ↔ i < n.
Proof.
  unfold completionOrder. rewrite elem_of_app, list_elem_of_difference,
    elem_of_remove_dups, elem_of_seq.
  split.
  - intros [Hi | [Hi _]]; [|lia].
    apply list_elem_of_In, filter_In in Hi as [_ Hi]. by apply Nat.ltb_lt in Hi.
  - intros Hi.
    destruct (decide (i ∈ List.filter (λ i, Nat.ltb i n) o)); [by left|].
    right. split; [lia | done].
Qed.

Section PromiseAll.
Context {A : Type}.
Implicit Types (tasks : list (Async A)) (vs : list A) (slots : list (option A)).

(** When every task is fulfilled, completing them in any order fills
    the slots they are stored at, and only those. *)
Lemma complete_all_fulfilled tasks vs :
  Forall2 (λ t v, outcome t = Fulfilled v) tasks vs →
  ∀ (l : list nat) (acc : Async (list (option A))) slots,
    outcome acc = Fulfilled slots →
    length slots = length tasks →
    ∃ slots', outcome (foldl (complete tasks) acc l) = Fulfilled slots'
      ∧ length slots' = length tasks
      ∧ ∀ i, slots' !! i = if decide (i ∈ l) then Some <$> vs !! i else slots !! i.
Proof.
  intros Hall l. induction l as [|j l IH]; intros acc slots Hacc Hlen.
  - exists slots. split; [done|]. split; [done|]. intros i.
    destruct (decide (i ∈ [])) as [Hin|]; [by apply elem_of_nil in Hin | done].
  - simpl. unfold complete at 2.
    destruct (tasks !! j) as [t|] eqn:Ht.
    + destruct (Forall2_lookup_l _ _ _ _ _ Hall Ht) as (v & Hv & Htv).
      destruct (IH (MkAsync (Fulfilled (<[j:=Some v]> slots)) (events acc ++ events t))
                  (<[j:=Some v]> slots)) as (slots' & Hfold & Hlen' & Hslots).
      { done. }
      { by rewrite length_insert. }
      exists slots'. rewrite Hacc, Htv. split; [done|]. split; [done|].
      intros i. rewrite Hslots.
      destruct (decide (i ∈ l)) as [Hil|Hil].
      * rewrite decide_True; [done | by right].
      * destruct (decide (i = j)) as [->|Hne].
        -- rewrite decide_True by left.
           rewrite list_lookup_insert_eq, Hv; [done|].
           rewrite Hlen. by eapply lookup_lt_Some.
        -- rewrite decide_False by (rewrite elem_of_cons; tauto).
           by rewrite list_lookup_insert_ne.
    + destruct (IH acc slots Hacc Hlen) as (slots' & Hfold & Hlen' & Hslots).
      exists slots'. split; [done|]. split; [done|].
      intros i. rewrite Hslots.
      destruct (decide (i ∈ l)) as [Hil|Hil].
      * rewrite decide_True; [done | by right].
      * destruct (decide (i = j)) as [->|Hne].
        -- rewrite decide_True by left.
           apply lookup_ge_None in Ht.
           rewrite (lookup_ge_None_2 slots), (lookup_ge_None_2 vs); [done| |lia].
           by rewrite <- (Forall2_length _ _ _ Hall).
        -- by rewrite decide_False by (rewrite elem_of_cons; tauto).
Qed.

(** A slot that was filled was filled by its own task, fulfilled. *)
Lemma complete_fulfilled_inv tasks :
  ∀ (l : list nat) (acc : Async (list (option A))) slots',
    outcome (foldl (complete tasks) acc l) = Fulfilled slots' →
    ∃ slots, outcome acc = Fulfilled slots
      ∧ length slots' = length slots
      ∧ ∀ i, slots' !! i = slots !! i
             ∨ ∃ t a, tasks !! i = Some t ∧ outcome t = Fulfilled a
                      ∧ slots' !! i = Some (Some a).
Proof.
  induction l as [|j l IH]; intros acc slots' Hfold.
  - exists slots'. split; [done|]. split; [done|]. by left.
  - simpl in Hfold. apply IH in Hfold as (slots1 & Hacc1 & Hlen1 & Hslots1).
    unfold complete in Hacc1.
    destruct (tasks !! j) as [t|] eqn:Ht; [|by exists slots1].
    simpl in Hacc1.
    destruct (outcome acc) as [slots| |] eqn:Hacc; [|done|done].
    exists slots. split; [done|].
    destruct (outcome t) as [a| |] eqn:Hta; [|done|].
    + injection Hacc1 as <-. rewrite length_insert in Hlen1. split; [done|].
      intros i. destruct (Hslots1 i) as [Hi|Hi]; [|by right].
      destruct (decide (i = j)) as [->|Hne].
      * destruct (decide (j < length slots)) as [Hlt|Hge].
        -- right. exists t, a. rewrite Hi, list_lookup_insert_eq by done. done.
        -- left. rewrite Hi, list_insert_ge; [done | lia].
      * left. by rewrite Hi, list_lookup_insert_ne.
    + by injection Hacc1 as <-.
Qed.

(** The join is fulfilled exactly when every task is, whatever the
    completion order, and then holds the results by position. *)
Lemma promiseAll_fulfilled (o : list nat) tasks vs :
  outcome (promiseAll o tasks) = Fulfilled vs
  ↔ Forall2 (λ t v, outcome t = Fulfilled v) tasks vs.
Proof.
  unfold promiseAll. simpl. split.
  - intros H.
    destruct (outcome (foldl _ _ _)) as [slots'| |] eqn:Hfold; [|done|done].
    destruct (mapM _ slots') as [results|] eqn:Hm; [|done].
    injection H as ->. apply mapM_Some_1 in Hm.
    apply complete_fulfilled_inv in Hfold as (slots & Hacc & Hlen & Hslots).
    simpl in Hacc. injection Hacc as <-. rewrite length_replicate in Hlen.
    apply Forall2_same_length_lookup. split.
    { rewrite <- (Forall2_length _ _ _ Hm). done. }
    intros i t v Ht Hv.
    destruct (Forall2_lookup_r _ _ _ _ _ Hm Hv) as (slot & Hslot & ->).
    destruct (Hslots i) as [Hi | (t' & a & Ht' & Hta & Hi)].
    + rewrite Hslot in Hi. symmetry in Hi.
      apply lookup_replicate in Hi as [? _]. done.
    + rewrite Hslot in Hi. injection Hi as ->. congruence.
  - intros Hall.
    destruct (complete_all_fulfilled tasks vs Hall
                (completionOrder (length tasks) o)
                (MkAsync (Fulfilled (replicate (length tasks) None)) [])
                (replicate (length tasks) None))
      as (slots' & Hfold & Hlen & Hslots).
    { done. }
    { apply length_replicate. }
    rewrite Hfold.
    assert (Hm : mapM (λ slot, slot) slots' = Some vs).
    { apply mapM_Some_2, Forall2_same_length_lookup. split.
      { rewrite Hlen. by apply Forall2_length in Hall. }
      intros i slot v Hslot Hv. rewrite Hslots in Hslot.
      rewrite decide_True in Hslot.
      - rewrite Hv in Hslot. by injection Hslot as <-.
      - apply completionOrder_elem_of.
        rewrite (Forall2_length _ _ _ Hall). by eapply lookup_lt_Some. }
    by rewrite Hm.
Qed.
End PromiseAll.

(** ** Joining strings *)

#[local] Arguments String.append !s1 s2 : simpl nomatch.

Lemma string_app_nil_r (s : string) : s ++ EmptyString = s.
Proof. induction s as [|c s IH]; simpl; [done | by rewrite IH]. Qed.

Lemma string_app_assoc (s1 s2 s3 : string) : (s1 ++ s2) ++ s3 = s1 ++ s2 ++ s3.
Proof. induction s1 as [|c s1 IH]; simpl; [done | by rewrite IH]. Qed.

Lemma join_cons (x : string) (a : list string) :
  join EmptyString (x :: a) = x ++ join EmptyString a.
Proof.
  unfold join. destruct a as [|y a]; simpl; [by rewrite string_app_nil_r | done].
Qed.

Lemma join_app (a b : list string) :
  join EmptyString (a ++ b) = join EmptyString a ++ join EmptyString b.
Proof.
  induction a as [|x a IH]; [done|].
  rewrite <- app_comm_cons, !join_cons, IH. by rewrite string_app_assoc.
Qed.

Lemma flat_app (a b : list (list string)) : flat (a ++ b) = (flat a ++ flat b)%list.
Proof. apply concat_app. Qed.

(** ** Trees *)

Lemma DomNode_ind (P : DomNode → Prop) :
  (∀ content, P (DomTextNode content)) →
  (∀ tagName attributes children,
      Forall P children → P (DomHtmlNode tagName attributes children)) →
  ∀ node, P node.
Proof.
  intros Htext Helem. fix IH 1. intros [content | tagName attributes children].
  - apply Htext.
  - apply Helem. induction children as [|child children IHchildren].
    + constructor.
    + constructor; [apply IH | apply IHchildren].
Qed.

(** ** The traversal engine *)

Section EngineFacts.
Context {C : Type}.
Variable transform : TransformNodeFunctionAsync C.
Variable context : option C.

Abbreviation task := (nodeTask transform context).
Abbreviation traverse := (traverseAndTransformNodesAsync transform context).

Lemma tasksOf_fulfilled (nodes : list DomNode) :
  Forall (scheduleFree transform context) nodes →
  ∀ ss vs,
    Forall2 (λ t v, outcome t = Fulfilled v) (tasksOf task ss nodes) vs
    ↔ Forall2 (λ node v, outcome (task inOrder node) = Fulfilled v) nodes vs.
Proof.
  induction 1 as [|node nodes Hnode Hnodes IH]; intros ss vs; simpl.
  - split; intros Hvs; inversion Hvs; constructor.
  - split; intros Hvs; inversion Hvs as [|? v ? vs' Hv Hvs']; subst;
      constructor; try (by apply (IH (tl ss))); by eapply Hnode.
Qed.

Lemma nodeTask_element (s : Sched) tagName attributes children :
  task s (DomHtmlNode tagName attributes children)
  = (flat <$> promiseAll (order s) (tasksOf task (subs s) children))
      ≫= (λ processedItems,
            transform (DomHtmlNode tagName attributes children) processedItems context).
Proof. done. Qed.

Lemma nodeTask_element_fulfilled (s : Sched) tagName attributes children v :
  Forall (scheduleFree transform context) children →
  outcome (task s (DomHtmlNode tagName attributes children)) = Fulfilled v
  ↔ ∃ vs, Forall2 (λ node v, outcome (task inOrder node) = Fulfilled v) children vs
          ∧ outcome (transform (DomHtmlNode tagName attributes children) (flat vs) context)
            = Fulfilled v.
Proof.
  intros Hch. rewrite nodeTask_element, outcome_bind_fulfilled. split.
  - intros (items & Hitems & Hv).
    apply outcome_fmap_fulfilled in Hitems as (vs & Hvs & ->).
    apply promiseAll_fulfilled, tasksOf_fulfilled in Hvs; [|done]. by exists vs.
  - intros (vs & Hvs & Hv). exists (flat vs). split; [|done].
    apply outcome_fmap_fulfilled. exists vs. split; [|done].
    by apply promiseAll_fulfilled, tasksOf_fulfilled.
Qed.

Lemma nodeTask_scheduleFree (node : DomNode) : scheduleFree transform context node.
Proof.
  induction node as [content | tagName attributes children IH] using DomNode_ind.
  - by intros s s' v.
  - intros s s' v Hv.
    apply nodeTask_element_fulfilled in Hv; [|done].
    by apply nodeTask_element_fulfilled.
Qed.

Lemma all_scheduleFree (nodes : list DomNode) : Forall (scheduleFree transform context) nodes.
Proof. apply Forall_forall. intros node _. apply nodeTask_scheduleFree. Qed.

(** The traversal of a fragment is fulfilled exactly when the task of
    every sibling is, and then yields the siblings' results flattened in
    document order, under every schedule. *)
Lemma traverse_fulfilled (s : Sched) (nodes : list DomNode) (out : list string) :
  outcome (traverse s nodes) = Fulfilled out
  ↔ ∃ vs, Forall2 (λ node v, outcome (task inOrder node) = Fulfilled v) nodes vs
          ∧ out = flat vs.
Proof.
  unfold traverseAndTransformNodesAsync. rewrite outcome_fmap_fulfilled.
  split; intros (vs & Hvs & ->); exists vs; (split; [|done]).
  - apply promiseAll_fulfilled, tasksOf_fulfilled in Hvs; [done | apply all_scheduleFree].
  - apply promiseAll_fulfilled, tasksOf_fulfilled; [apply all_scheduleFree | done].
Qed.

Lemma traverse_schedule_irrelevant (s s' : Sched) (nodes : list DomNode) out :
  outcome (traverse s nodes) = Fulfilled out →
  outcome (traverse s' nodes) = Fulfilled out.
Proof. rewrite !traverse_fulfilled. done. Qed.

Lemma traverse_node (s : Sched) (node : DomNode) (out : list string) :
  outcome (traverse s [node]) = Fulfilled out
  ↔ outcome (task inOrder node) = Fulfilled out.
Proof.
  rewrite traverse_fulfilled. split.
  - intros (vs & Hvs & ->).
    inversion Hvs as [|? v ? vs' Hv Hvs']; subst. inversion Hvs'; subst.
    unfold flat. simpl. by rewrite app_nil_r.
  - intros Hv. exists [out]. split; [by repeat constructor|].
    unfold flat. simpl. by rewrite app_nil_r.
Qed.

(** The traversal of two fragments put side by side is that of the
    first followed by that of the second. *)
Lemma traverse_app (s s1 s2 : Sched) (nodes1 nodes2 : list DomNode) (out : list string) :
  outcome (traverse s (nodes1 ++ nodes2)) = Fulfilled out
  ↔ ∃ out1 out2, outcome (traverse s1 nodes1) = Fulfilled out1
                 ∧ outcome (traverse s2 nodes2) = Fulfilled out2
                 ∧ out = (out1 ++ out2)%list.
Proof.
  rewrite traverse_fulfilled. split.
  - intros (vs & Hvs & ->).
    apply Forall2_app_inv_l in Hvs as (vs1 & vs2 & Hvs1 & Hvs2 & ->).
    exists (flat vs1), (flat vs2). rewrite !traverse_fulfilled.
    split; [by exists vs1|]. split; [by exists vs2|]. apply flat_app.
  - intros (out1 & out2 & H1 & H2 & ->).
    apply traverse_fulfilled in H1 as (vs1 & Hvs1 & ->).
    apply traverse_fulfilled in H2 as (vs2 & Hvs2 & ->).
    exists (vs1 ++ vs2)%list. split; [by apply Forall2_app | by rewrite flat_app].
Qed.
End EngineFacts.

(** ** The image branch of the callback pipeline *)

(** One step of symbolic execution: unfold the monad and the record
    projections, leave strings and oracles alone. *)
Ltac run_async :=
  cbv beta iota zeta delta
    [outcome events app mbind Async_bind fmap Async_fmap mret Async_ret
     resolved throw call optional_call pathname_of console_error try_catch
     client option_fmap option_map resolve reject].

Section ImageBranch.
Variable P : Platform.
Variables (attributes : Attributes) (children : list DomNode).
Variable processedItems : list string.

Abbreviation img := (DomHtmlNode "img" attributes children).
Abbreviation src := (template (get attributes "src")).

Lemma image_success (c : ManagementClient) response pathname u r :
  truthy (get attributes "src") = true →
  axios_get P src = Fulfilled response →
  URL_pathname P src = Some pathname →
  uploadBinaryFile c (binaryFileRequest response pathname) = Fulfilled u →
  addAsset c (assetRequest (Some (data_id u)) pathname) = Fulfilled r →
  transformNodeToMapiRichText P img processedItems (Some {| client := c |})
  = MkAsync (Fulfilled [figure (Some (data_id r))])
      [ AxiosGet src;
        UploadBinaryFile (binaryFileRequest response pathname);
        AddAsset (assetRequest (Some (data_id u)) pathname) ].
Proof.
  intros Hsrc Hget Hurl Hup Hadd.
  unfold binaryFileRequest, assetRequest, imageFilename in *.
  unfold transformNodeToMapiRichText. rewrite Hsrc.
  change (String.eqb "img" "img" && true) with true.
  run_async. rewrite Hget. run_async. rewrite Hurl. run_async. rewrite Hup.
  run_async. rewrite Hadd. reflexivity.
Qed.

(** Without a context the optional chains short-circuit: nothing is
    uploaded and the marker carries the text [undefined]. *)
Lemma image_without_context response pathname :
  truthy (get attributes "src") = true →
  axios_get P src = Fulfilled response →
  URL_pathname P src = Some pathname →
  transformNodeToMapiRichText P img processedItems None
  = MkAsync (Fulfilled [figure None]) [AxiosGet src].
Proof.
  intros Hsrc Hget Hurl.
  unfold transformNodeToMapiRichText. rewrite Hsrc.
  change (String.eqb "img" "img" && true) with true.
  run_async. rewrite Hget. run_async. rewrite Hurl. reflexivity.
Qed.

Lemma image_fetch_fails (context : option Context) e :
  truthy (get attributes "src") = true →
  axios_get P src = Rejected e →
  transformNodeToMapiRichText P img processedItems context
  = MkAsync (Fulfilled ["<img/>"])
      [AxiosGet src; ConsoleError "Error processing image node:" e].
Proof.
  intros Hsrc Hget.
  unfold transformNodeToMapiRichText. rewrite Hsrc.
  change (String.eqb "img" "img" && true) with true.
  run_async. rewrite Hget. reflexivity.
Qed.

Lemma image_url_fails (context : option Context) response :
  truthy (get attributes "src") = true →
  axios_get P src = Fulfilled response →
  URL_pathname P src = None →
  transformNodeToMapiRichText P img processedItems context
  = MkAsync (Fulfilled ["<img/>"])
      [AxiosGet src;
       ConsoleError "Error processing image node:" (ThrownError "TypeError" "Invalid URL")].
Proof.
  intros Hsrc Hget Hurl.
  unfold transformNodeToMapiRichText. rewrite Hsrc.
  change (String.eqb "img" "img" && true) with true.
  run_async. rewrite Hget. run_async. rewrite Hurl. reflexivity.
Qed.

Lemma image_upload_fails (c : ManagementClient) response pathname e :
  truthy (get attributes "src") = true →
  axios_get P src = Fulfilled response →
  URL_pathname P src = Some pathname →
  uploadBinaryFile c (binaryFileRequest response pathname) = Rejected e →
  transformNodeToMapiRichText P img processedItems (Some {| client := c |})
  = MkAsync (Fulfilled ["<img/>"])
      [AxiosGet src;
       UploadBinaryFile (binaryFileRequest response pathname);
       ConsoleError "Error processing image node:" e].
Proof.
  intros Hsrc Hget Hurl Hup.
  unfold binaryFileRequest, imageFilename in *.
  unfold transformNodeToMapiRichText. rewrite Hsrc.
  change (String.eqb "img" "img" && true) with true.
  run_async. rewrite Hget. run_async. rewrite Hurl. run_async. rewrite Hup.
  reflexivity.
Qed.

Lemma image_registration_fails (c : ManagementClient) response pathname u e :
  truthy (get attributes "src") = true →
  axios_get P src = Fulfilled response →
  URL_pathname P src = Some pathname →
  uploadBinaryFile c (binaryFileRequest response pathname) = Fulfilled u →
  addAsset c (assetRequest (Some (data_id u)) pathname) = Rejected e →
  transformNodeToMapiRichText P img processedItems (Some {| client := c |})
  = MkAsync (Fulfilled ["<img/>"])
      [AxiosGet src;
       UploadBinaryFile (binaryFileRequest response pathname);
       AddAsset (assetRequest (Some (data_id u)) pathname);
       ConsoleError "Error processing image node:" e].
Proof.
  intros Hsrc Hget Hurl Hup Hadd.
  unfold binaryFileRequest, assetRequest, imageFilename in *.
  unfold transformNodeToMapiRichText. rewrite Hsrc.
  change (String.eqb "img" "img" && true) with true.
  run_async. rewrite Hget. run_async. rewrite Hurl. run_async. rewrite Hup.
  run_async. rewrite Hadd. reflexivity.
Qed.
End ImageBranch.

(** An element that fails the guard of the image branch is re-emitted. *)
Lemma default_branch (P : Platform) tagName attributes children processedItems
    (context : option Context) :
  isImageWithSrc (DomHtmlNode tagName attributes children) = false →
  transformNodeToMapiRichText P (DomHtmlNode tagName attributes children)
    processedItems context
  = MkAsync
      (Fulfilled [ "<" ++ tagName ++ " " ++ serializeKnownAttributes attributes ++ ">"
                     ++ join EmptyString processedItems ++ "</" ++ tagName ++ ">" ])
      [].
Proof.
  unfold isImageWithSrc, transformNodeToMapiRichText. by intros ->.
Qed.

(** The callback never rejects: whatever is thrown inside the image branch
    is caught there, and nothing else throws. *)
Lemma transformNodeToMapiRichText_never_rejects (P : Platform) node processedItems
    (context : option Context) e :
  outcome (transformNodeToMapiRichText P node processedItems context) ≠ Rejected e.
Proof.
  destruct node as [content | tagName attributes children]; [done|].
  unfold transformNodeToMapiRichText.
  destruct (String.eqb tagName "img" && truthy (get attributes "src")); [|done].
  run_async.
  destruct (axios_get P _) as [response| |]; [|done|done].
  run_async. destruct (URL_pathname P _) as [pathname|]; [|done].
  run_async. destruct context as [[c]|].
  - run_async. destruct (uploadBinaryFile c _) as [u| |]; [|done|done].
    run_async. destruct (addAsset c _) as [r| |]; done.
  - done.
Qed.

(** ** Rejections and the engine *)

Lemma outcome_bind_rejected {A B} (m : Async A) (k : A → Async B) e :
  outcome (m ≫= k) = Rejected e
  ↔ outcome m = Rejected e ∨ ∃ a, outcome m = Fulfilled a ∧ outcome (k a) = Rejected e.
Proof.
  unfold mbind, Async_bind. destruct (outcome m) as [a| |]; simpl.
  - split; [intros H; right; by exists a | by intros [? | (? & [= ->] & ?)]].
  - split; [intros [= ->]; by left | intros [? | (? & ? & ?)]; congruence].
  - split; [done | intros [? | (? & ? & ?)]; congruence].
Qed.

Lemma outcome_fmap_rejected {A B} (f : A → B) (m : Async A) e :
  outcome (f <$> m) = Rejected e ↔ outcome m = Rejected e.
Proof.
  unfold fmap, Async_fmap. rewrite outcome_bind_rejected.
  split; [intros [? | (? & ? & ?)]; [done | discriminate] | auto].
Qed.

Lemma complete_rejected_inv {A} (tasks : list (Async A)) :
  ∀ (l : list nat) (acc : Async (list (option A))) e,
    outcome (foldl (complete tasks) acc l) = Rejected e →
    outcome acc = Rejected e ∨ ∃ t, t ∈ tasks ∧ outcome t = Rejected e.
Proof.
  induction l as [|j l IH]; intros acc e Hfold; [by left|].
  simpl in Hfold. apply IH in Hfold as [Hacc | Ht]; [|by right].
  unfold complete in Hacc. destruct (tasks !! j) as [t|] eqn:Ht; [|by left].
  simpl in Hacc. destruct (outcome acc) as [slots| |]; [|by left|done].
  destruct (outcome t) as [a| |] eqn:Hta; [done| |done].
  right. exists t. split; [by eapply list_elem_of_lookup_2 | congruence].
Qed.

(** A join is rejected only with the rejection of one of its tasks. *)
Lemma promiseAll_rejected {A} (o : list nat) (tasks : list (Async A)) e :
  outcome (promiseAll o tasks) = Rejected e →
  ∃ t, t ∈ tasks ∧ outcome t = Rejected e.
Proof.
  unfold promiseAll. simpl. intros H.
  destruct (outcome (foldl _ _ _)) as [slots| |] eqn:Hfold.
  - by destruct (mapM _ slots).
  - injection H as ->. by apply complete_rejected_inv in Hfold as [? | ?].
  - done.
Qed.

Lemma complete_rejected_stays {A} (tasks : list (Async A)) :
  ∀ (l : list nat) (acc : Async (list (option A))) e,
    outcome acc = Rejected e →
    outcome (foldl (complete tasks) acc l) = Rejected e.
Proof.
  induction l as [|j l IH]; intros acc e Hacc; [done|].
  simpl. apply IH. unfold complete.
  destruct (tasks !! j) as [t|]; [|done]. simpl. by rewrite Hacc.
Qed.

Lemma complete_some_rejected {A} (tasks : list (Async A)) i t e :
  tasks !! i = Some t → outcome t = Rejected e →
  ∀ (l : list nat) (acc : Async (list (option A))) slots,
    i ∈ l →
    outcome acc = Fulfilled slots →
    ∃ e', outcome (foldl (complete tasks) acc l) = Rejected e'.
Proof.
  intros Hi Ht. induction l as [|j l IH]; intros acc slots Hin Hacc.
  - by apply elem_of_nil in Hin.
  - simpl. destruct (decide (i = j)) as [<-|Hne].
    + exists e. apply complete_rejected_stays.
      unfold complete. rewrite Hi. simpl. by rewrite Hacc, Ht.
    + apply elem_of_cons in Hin as [?|Hin]; [done|].
      unfold complete at 2. destruct (tasks !! j) as [t'|]; [|by eapply IH].
      destruct (outcome t') as [a|e'|] eqn:Ht'.
      * eapply IH; [done|]. simpl. by rewrite Hacc.
      * exists e'. apply complete_rejected_stays. simpl. by rewrite Hacc.
      * eapply IH; [done|]. simpl. by rewrite Hacc.
Qed.

(** A join with a rejected task is rejected, whatever the other tasks
    do and in whatever order they complete. *)
Lemma promiseAll_some_rejected {A} (o : list nat) (tasks : list (Async A)) i t e :
  tasks !! i = Some t → outcome t = Rejected e →
  ∃ e', outcome (promiseAll o tasks) = Rejected e'.
Proof.
  intros Hi Ht.
  destruct (complete_some_rejected tasks i t e Hi Ht
              (completionOrder (length tasks) o)
              (MkAsync (Fulfilled (replicate (length tasks) None)) [])
              (replicate (length tasks) None)) as [e' He'].
  - apply completionOrder_elem_of. by eapply lookup_lt_Some.
  - done.
  - exists e'. unfold promiseAll. simpl. by rewrite He'.
Qed.

Lemma tasksOf_lookup (task : Sched → DomNode → Async (list string)) nodes :
  ∀ ss i node, nodes !! i = Some node →
               ∃ s, tasksOf task ss nodes !! i = Some (task s node).
Proof.
  induction nodes as [|node' nodes IH]; intros ss i node Hi; [done|].
  destruct i as [|i]; simpl in *.
  - injection Hi as ->. by eexists.
  - by apply IH.
Qed.

Lemma tasksOf_elem_of (task : Sched → DomNode → Async (list string)) nodes :
  ∀ ss t, t ∈ tasksOf task ss nodes → ∃ s node, node ∈ nodes ∧ t = task s node.
Proof.
  induction nodes as [|node nodes IH]; intros ss t Ht; simpl in Ht.
  - by apply elem_of_nil in Ht.
  - apply elem_of_cons in Ht as [-> | Ht].
    + exists (hd inOrder ss), node. split; [by left | done].
    + apply IH in Ht as (s & node' & Hin & ->).
      exists s, node'. split; [by right | done].
Qed.

Section EngineSettles.
Context {C : Type}.
Variable transform : TransformNodeFunctionAsync C.
Variable context : option C.

(** With a transformer that never rejects, no task of the traversal
    does. *)
Lemma nodeTask_never_rejects :
  (∀ node items e, outcome (transform node items context) ≠ Rejected e) →
  ∀ node s e, outcome (nodeTask transform context s node) ≠ Rejected e.
Proof.
  intros Htr node.
  induction node as [content | tagName attributes children IH] using DomNode_ind;
    intros s e.
  - apply Htr.
  - rewrite nodeTask_element, outcome_bind_rejected.
    intros [Hch | (items & _ & Hrej)]; [|by eapply Htr].
    apply outcome_fmap_rejected, promiseAll_rejected in Hch as (t & Ht & Hrej).
    apply tasksOf_elem_of in Ht as (s' & child & Hin & ->).
    rewrite Forall_forall in IH. by eapply IH.
Qed.

Lemma traverse_never_rejects :
  (∀ node items e, outcome (transform node items context) ≠ Rejected e) →
  ∀ s nodes e,
    outcome (traverseAndTransformNodesAsync transform context s nodes) ≠ Rejected e.
Proof.
  intros Htr s nodes e. unfold traverseAndTransformNodesAsync.
  rewrite outcome_fmap_rejected. intros (t & Ht & Hrej)%promiseAll_rejected.
  apply tasksOf_elem_of in Ht as (s' & node & _ & ->).
  by eapply nodeTask_never_rejects.
Qed.

(** With a transformer that is always fulfilled, every traversal is. *)
Lemma nodeTask_always_fulfilled :
  (∀ node items, ∃ v, outcome (transform node items context) = Fulfilled v) →
  ∀ node, ∃ v, outcome (nodeTask transform context inOrder node) = Fulfilled v.
Proof.
  intros Htr node.
  induction node as [content | tagName attributes children IH] using DomNode_ind.
  - apply Htr.
  - assert (∃ vs, Forall2 (λ node v,
                outcome (nodeTask transform context inOrder node) = Fulfilled v)
              children vs) as [vs Hvs].
    { induction IH as [|child children [v Hv] _ [vs Hvs]].
      - by exists [].
      - exists (v :: vs). by constructor. }
    destruct (Htr (DomHtmlNode tagName attributes children) (flat vs)) as [v Hv].
    exists v. apply nodeTask_element_fulfilled; [apply all_scheduleFree|].
    by exists vs.
Qed.

Lemma traverse_always_fulfilled :
  (∀ node items, ∃ v, outcome (transform node items context) = Fulfilled v) →
  ∀ s nodes, ∃ out,
    outcome (traverseAndTransformNodesAsync transform context s nodes) = Fulfilled out.
Proof.
  intros Htr s nodes.
  assert (∃ vs, Forall2 (λ node v,
              outcome (nodeTask transform context inOrder node) = Fulfilled v)
            nodes vs) as [vs Hvs].
  { induction nodes as [|node nodes [vs Hvs]].
    - by exists [].
    - destruct (nodeTask_always_fulfilled Htr node) as [v Hv].
      exists (v :: vs). by constructor. }
  exists (flat vs). apply traverse_fulfilled. by exists vs.
Qed.

(** A tree whose task is fulfilled has every node's task fulfilled. *)
Lemma occursIn_fulfilled node tree :
  occursIn node tree →
  ∀ s v, outcome (nodeTask transform context s tree) = Fulfilled v →
  ∃ v', outcome (nodeTask transform context inOrder node) = Fulfilled v'.
Proof.
  induction 1 as [|tagName attributes children child Hin _ IH]; intros s v Hv.
  - exists v. by eapply nodeTask_scheduleFree.
  - apply nodeTask_element_fulfilled in Hv as (vs & Hvs & _); [|apply all_scheduleFree].
    apply list_elem_of_lookup_1 in Hin as [i Hi].
    destruct (Forall2_lookup_l _ _ _ _ _ Hvs Hi) as (v' & _ & Hv').
    by eapply IH.
Qed.

(** A fragment in which some node's task is not fulfilled is not
    fulfilled either: the failure aborts the whole traversal. *)
Lemma traverse_aborts node tree nodes :
  occursIn node tree → tree ∈ nodes →
  (∀ v, outcome (nodeTask transform context inOrder node) ≠ Fulfilled v) →
  ∀ s out,
    outcome (traverseAndTransformNodesAsync transform context s nodes) ≠ Fulfilled out.
Proof.
  intros Hocc Hin Hnode s out Hout.
  apply traverse_fulfilled in Hout as (vs & Hvs & _).
  apply list_elem_of_lookup_1 in Hin as [i Hi].
  destruct (Forall2_lookup_l _ _ _ _ _ Hvs Hi) as (v & _ & Hv).
  destruct (occursIn_fulfilled _ _ Hocc _ _ Hv) as [v' Hv'].
  by eapply Hnode.
Qed.

(** The rejection of a node's task rejects the task of every tree the
    node occurs in, and the traversal of every fragment with such a
    tree. *)
Lemma occursIn_rejected node tree :
  occursIn node tree →
  (∀ s, ∃ e, outcome (nodeTask transform context s node) = Rejected e) →
  ∀ s, ∃ e, outcome (nodeTask transform context s tree) = Rejected e.
Proof.
  induction 1 as [|tagName attributes children child Hin _ IH]; intros Hnode s;
    [done|].
  apply list_elem_of_lookup_1 in Hin as [i Hi].
  destruct (tasksOf_lookup (nodeTask transform context) children (subs s) i child Hi)
    as [s' Hs'].
  destruct (IH Hnode s') as [e He].
  destruct (promiseAll_some_rejected (order s) _ _ _ _ Hs' He) as [e' He'].
  exists e'. rewrite nodeTask_element. apply outcome_bind_rejected. left.
  by apply outcome_fmap_rejected.
Qed.

Lemma traverse_rejected node tree nodes :
  occursIn node tree → tree ∈ nodes →
  (∀ s, ∃ e, outcome (nodeTask transform context s node) = Rejected e) →
  ∀ s, ∃ e,
    outcome (traverseAndTransformNodesAsync transform context s nodes) = Rejected e.
Proof.
  intros Hocc Hin Hnode s.
  apply list_elem_of_lookup_1 in Hin as [i Hi].
  destruct (tasksOf_lookup (nodeTask transform context) nodes (subs s) i tree Hi)
    as [s' Hs'].
  destruct (occursIn_rejected _ _ Hocc Hnode s') as [e He].
  destruct (promiseAll_some_rejected (order s) _ _ _ _ Hs' He) as [e' He'].
  exists e'. unfold traverseAndTransformNodesAsync. by apply outcome_fmap_rejected.
Qed.
End EngineSettles.

(** ** The callback pipeline as a whole *)

(** When every external call settles, the callback is fulfilled. *)
Lemma transformNodeToMapiRichText_fulfilled (P : Platform) (context : option Context) :
  responsive P context →
  ∀ node items, ∃ v,
    outcome (transformNodeToMapiRichText P node items context) = Fulfilled v.
Proof.
  intros [Hget Hclient] node items.
  destruct node as [content | tagName attributes children]; [by eexists|].
  unfold transformNodeToMapiRichText.
  destruct (String.eqb tagName "img" && truthy (get attributes "src")); [|by eexists].
  run_async. specialize (Hget (template (get attributes "src"))).
  destruct (axios_get P _) as [response| |]; [|by eexists|done].
  run_async. destruct (URL_pathname P _) as [pathname|]; [|by eexists].
  run_async. destruct context as [[c]|]; [|by eexists].
  destruct (Hclient c eq_refl) as [Hup Hadd].
  run_async.
  match goal with |- context [uploadBinaryFile c ?d] => specialize (Hup d) end.
  destruct (uploadBinaryFile c _) as [u| |]; [|by eexists|done].
  run_async.
  match goal with |- context [addAsset c ?d] => specialize (Hadd d) end.
  destruct (addAsset c _) as [r| |]; [by eexists|by eexists|done].
Qed.

Lemma transformedRichText_fulfilled (P : Platform) (s : Sched) nodes
    (context : option Context) (html : string) :
  outcome (transformedRichText P s nodes context) = Fulfilled html
  ↔ ∃ out, outcome (traverseAndTransformNodesAsync (transformNodeToMapiRichText P)
                      context s nodes) = Fulfilled out
           ∧ html = join EmptyString out.
Proof. apply outcome_fmap_fulfilled. Qed.

(** The rich text of a fragment is the rich text of its parts, in order. *)
Lemma transformedRichText_app (P : Platform) (s : Sched) before after
    (context : option Context) htmlBefore htmlAfter :
  outcome (transformedRichText P s before context) = Fulfilled htmlBefore →
  outcome (transformedRichText P s after context) = Fulfilled htmlAfter →
  outcome (transformedRichText P s (before ++ after) context)
  = Fulfilled (htmlBefore ++ htmlAfter).
Proof.
  rewrite !transformedRichText_fulfilled.
  intros (out1 & H1 & ->) (out2 & H2 & ->).
  exists (out1 ++ out2)%list. split; [|by rewrite join_app].
  apply (traverse_app _ _ s s s). by exists out1, out2.
Qed.

Lemma transformedRichText_image (P : Platform) (s : Sched) attributes
    (context : option Context) (marker : string) :
  outcome (transformNodeToMapiRichText P (DomHtmlNode "img" attributes []) [] context)
  = Fulfilled [marker] →
  outcome (transformedRichText P s [DomHtmlNode "img" attributes []] context)
  = Fulfilled marker.
Proof.
  intros Hnode. apply transformedRichText_fulfilled. exists [marker].
  split; [|by rewrite join_cons, string_app_nil_r].
  apply traverse_node, nodeTask_element_fulfilled; [constructor|].
  exists []. split; [constructor | done].
Qed.

(** ** The registry pipeline as a whole *)

Lemma transformers_lookup_img : transformers !! "img" = Some transformers_img.
Proof. unfold transformers. by rewrite lookup_insert_ne, lookup_insert_eq. Qed.

Lemma transformers_lookup_i : transformers !! "i" = Some transformers_i.
Proof. unfold transformers. by rewrite lookup_insert_eq. Qed.

Section RegistryImage.
Variable c : ManagementClient.
Variable node : DomNode.
Variable children : string.

Abbreviation src_of := (template (get (node_attributes node) "src")).
Abbreviation alt_of := (get (node_attributes node) "alt").

Lemma img_without_client :
  transformers_img node children None
  = MkAsync (Rejected (ThrownString "Client is not provided")) [].
Proof. done. Qed.

Lemma img_without_src :
  truthy (get (node_attributes node) "src") = false →
  transformers_img node children (Some c)
  = MkAsync (Rejected (ThrownString "Invalid IMG tag: no src attribute.")) [].
Proof. unfold transformers_img. by intros ->. Qed.

Lemma img_success r :
  truthy (get (node_attributes node) "src") = true →
  uploadAssetFromUrl c (assetFromUrlRequest src_of alt_of) = Fulfilled r →
  transformers_img node children (Some c)
  = MkAsync (Fulfilled (figure (Some (data_id r))))
      [UploadAssetFromUrl (assetFromUrlRequest src_of alt_of)].
Proof.
  unfold transformers_img, assetFromUrlRequest. intros -> Hup.
  cbv beta iota zeta delta [negb]. by rewrite Hup.
Qed.

Lemma img_upload_fails e :
  truthy (get (node_attributes node) "src") = true →
  uploadAssetFromUrl c (assetFromUrlRequest src_of alt_of) = Rejected e →
  transformers_img node children (Some c)
  = MkAsync (Rejected e) [UploadAssetFromUrl (assetFromUrlRequest src_of alt_of)].
Proof.
  unfold transformers_img, assetFromUrlRequest. intros -> Hup.
  cbv beta iota zeta delta [negb]. by rewrite Hup.
Qed.
End RegistryImage.

(** A void [img] element whose transformer rejects, anywhere in a
    fragment, makes [nodesToHTMLAsync] reject. *)
Lemma registry_image_aborts (c : ManagementClient) attributes tree nodes :
  (∀ joined, ∃ e,
      outcome (transformers_img (DomHtmlNode "img" attributes []) joined (Some c))
      = Rejected e) →
  occursIn (DomHtmlNode "img" attributes []) tree →
  tree ∈ nodes →
  ∀ s, ∃ e, outcome (transformedRichText_registry s nodes c) = Rejected e.
Proof.
  intros Himg Hocc Hin s.
  destruct (traverse_rejected (registryTransform transformers) (Some c)
              _ _ _ Hocc Hin) with (s := s) as [e He].
  - intros s'. destruct (Himg (join EmptyString (flat []))) as [e He].
    exists e. rewrite nodeTask_element. apply outcome_bind_rejected. right.
    exists (flat []). split.
    { apply outcome_fmap_fulfilled. exists []. split; [|done].
      apply promiseAll_fulfilled. constructor. }
    unfold registryTransform. rewrite transformers_lookup_img.
    by apply outcome_fmap_rejected.
  - exists e. unfold transformedRichText_registry, nodesToHTMLAsync.
    by apply outcome_fmap_rejected.
Qed.

(** ** Image nodes: failure, missing source, success *)

(** C1, as stated, fails for the registry transformer [transformers.img]:
    it has no local fallback.  When the storage client fails, the
    transformer rejects with the client's error, and so does
    [nodesToHTMLAsync] over a document that is otherwise fine. *)
Lemma registry_image_failure_counterexample :
  transformers_img picture EmptyString (Some failingClient)
  = MkAsync (Rejected (ThrownError "SdkError" "503"))
      [UploadAssetFromUrl (assetFromUrlRequest "http://x/y/pic.png" None)]
  ∧ outcome (transformedRichText_registry inOrder [spanHi; picture] failingClient)
    = Rejected (ThrownError "SdkError" "503")
  ∧ outcome (transformedRichText_registry inOrder [spanHi; picture] failingClient)
    ≠ Fulfilled ("<span title=" ++ dq ++ "x" ++ dq ++ ">hi</span><img/>").
Proof. split; [|split]; [vm_compute; reflexivity.. | discriminate]. Qed.

(** C1, amended.  In the callback pipeline
    ([transformNodeToMapiRichText]), for every [img] element with a
    non-empty [src]: when the fetch, the URL constructor, the byte upload
    or the asset registration fails with [e], the callback catches it,
    reports [e] through [console.error] as its last act, and is fulfilled
    with the placeholder [<img/>]; the rich text of a fragment around the
    node is that of what precedes, the placeholder, and that of what
    follows; the pipeline never rejects, and is fulfilled whenever every
    external call settles.  In the registry pipeline [transformers.img]
    does not catch: a failing [uploadAssetFromUrl] rejects the
    transformer with the client's error and the traversal of every
    fragment the node occurs in. *)
Theorem image_failure_falls_back (P : Platform) (context : option Context)
    (attributes : Attributes) (e : Thrown) :
  truthy (get attributes "src") = true →
  imageFailure P context (template (get attributes "src")) e →
  (∀ children items,
      outcome (transformNodeToMapiRichText P (DomHtmlNode "img" attributes children)
                 items context)
      = Fulfilled ["<img/>"]
      ∧ last (events (transformNodeToMapiRichText P
                        (DomHtmlNode "img" attributes children) items context))
        = Some (ConsoleError "Error processing image node:" e))
  ∧ (∀ s before after htmlBefore htmlAfter,
        outcome (transformedRichText P s before context) = Fulfilled htmlBefore →
        outcome (transformedRichText P s after context) = Fulfilled htmlAfter →
        outcome (transformedRichText P s
                   (before ++ DomHtmlNode "img" attributes [] :: after) context)
        = Fulfilled (htmlBefore ++ "<img/>" ++ htmlAfter))
  ∧ (∀ s doc e', outcome (transformedRichText P s doc context) ≠ Rejected e')
  ∧ (responsive P context →
     ∀ s doc, ∃ html, outcome (transformedRichText P s doc context) = Fulfilled html)
  ∧ (∀ c e',
        uploadAssetFromUrl c
          (assetFromUrlRequest (template (get attributes "src")) (get attributes "alt"))
        = Rejected e' →
        (∀ joined,
            transformers_img (DomHtmlNode "img" attributes []) joined (Some c)
            = MkAsync (Rejected e')
                [UploadAssetFromUrl
                   (assetFromUrlRequest (template (get attributes "src"))
                      (get attributes "alt"))])
        ∧ ∀ tree nodes s,
            occursIn (DomHtmlNode "img" attributes []) tree → tree ∈ nodes →
            ∃ e'', outcome (transformedRichText_registry s nodes c) = Rejected e'').
Proof.
  intros Hsrc Hfail.
  assert (Hnode : ∀ children items,
             outcome (transformNodeToMapiRichText P (DomHtmlNode "img" attributes children)
                        items context)
             = Fulfilled ["<img/>"]
             ∧ last (events (transformNodeToMapiRichText P
                               (DomHtmlNode "img" attributes children) items context))
               = Some (ConsoleError "Error processing image node:" e)).
  { intros children items.
    destruct Hfail as [Hget | response Hget Hurl -> | c response pathname -> Hget Hurl Hup
                      | c response pathname u -> Hget Hurl Hup Hadd].
    - by rewrite (image_fetch_fails P attributes children items context e).
    - by rewrite (image_url_fails P attributes children items context response).
    - by rewrite (image_upload_fails P attributes children items c response pathname e).
    - by rewrite (image_registration_fails P attributes children items c response
                    pathname u e). }
  split; [done|]. split; [|split; [|split]].
  - intros s before after htmlBefore htmlAfter Hbefore Hafter.
    apply transformedRichText_app; [done|].
    change (DomHtmlNode "img" attributes [] :: after)
      with ([DomHtmlNode "img" attributes []] ++ after)%list.
    apply transformedRichText_app; [|done].
    apply transformedRichText_image, Hnode.
  - intros s doc e'. unfold transformedRichText. rewrite outcome_fmap_rejected.
    apply traverse_never_rejects. intros node items e''.
    apply transformNodeToMapiRichText_never_rejects.
  - intros Hresp s doc.
    destruct (traverse_always_fulfilled (transformNodeToMapiRichText P) context
                (transformNodeToMapiRichText_fulfilled P context Hresp) s doc)
      as [out Hout].
    exists (join EmptyString out). apply transformedRichText_fulfilled. by exists out.
  - intros c e' Hup.
    assert (Himg : ∀ joined,
               transformers_img (DomHtmlNode "img" attributes []) joined (Some c)
               = MkAsync (Rejected e')
                   [UploadAssetFromUrl
                      (assetFromUrlRequest (template (get attributes "src"))
                         (get attributes "alt"))]).
    { intros joined. by apply img_upload_fails. }
    split; [done|]. intros tree nodes s Hocc Hin.
    eapply registry_image_aborts; [|done..].
    intros joined. exists e'. by rewrite Himg.
Qed.

Lemma image_failure_falls_back_witness :
  truthy (get [("src", Some "http://x/y/pic.png")] "src") = true
  ∧ imageFailure offlinePlatform sampleContext "http://x/y/pic.png"
      (ThrownError "AxiosError" "ECONNREFUSED")
  ∧ outcome (transformedRichText offlinePlatform inOrder [spanHi; picture; spanHi]
               sampleContext)
    = Fulfilled ("<span title=" ++ dq ++ "x" ++ dq ++ ">hi</span>"
                 ++ "<img/>"
                 ++ "<span title=" ++ dq ++ "x" ++ dq ++ ">hi</span>").
Proof.
  assert (Hsrc : truthy (get [("src", Some "http://x/y/pic.png")] "src") = true)
    by reflexivity.
  assert (Hfail : imageFailure offlinePlatform sampleContext "http://x/y/pic.png"
                    (ThrownError "AxiosError" "ECONNREFUSED"))
    by (apply fetch_fails; reflexivity).
  split; [exact Hsrc|]. split; [exact Hfail|].
  refine (proj1 (proj2 (image_failure_falls_back offlinePlatform sampleContext
                          [("src", Some "http://x/y/pic.png")]
                          (ThrownError "AxiosError" "ECONNREFUSED") Hsrc Hfail))
            inOrder [spanHi] [spanHi]
            ("<span title=" ++ dq ++ "x" ++ dq ++ ">hi</span>")
            ("<span title=" ++ dq ++ "x" ++ dq ++ ">hi</span>") _ _);
    vm_compute; reflexivity.
Defined.

(** C2, as stated, fails for the callback pipeline: the guard of its image
    branch asks for a [src], so an [img] without one is no resource node at
    all; the default branch re-emits it and nothing fails. *)
Lemma callback_image_without_src_counterexample :
  get [("alt", Some "a robot")] "src" = None
  ∧ transformedRichText samplePlatform inOrder
      [DomHtmlNode "img" [("alt", Some "a robot")] []] sampleContext
    = MkAsync (Fulfilled "<img ></img>") [].
Proof. split; vm_compute; reflexivity. Qed.

(** C2, amended.  For every [img] element whose [src] is absent (or
    empty): in the registry pipeline, given a client, [transformers.img]
    rejects at once with the reason [Invalid IMG tag: no src attribute.],
    before anything is sent, produces no output, and the traversal of every
    fragment the node occurs in is rejected; in the callback pipeline the
    node is not treated as a resource node: the default branch re-emits it
    with its allow-listed attributes, and nothing fails. *)
Theorem image_without_src (attributes : Attributes) :
  truthy (get attributes "src") = false →
  (∀ c children joined,
      transformers_img (DomHtmlNode "img" attributes children) joined (Some c)
      = MkAsync (Rejected (ThrownString "Invalid IMG tag: no src attribute.")) [])
  ∧ (∀ c tree nodes s,
        occursIn (DomHtmlNode "img" attributes []) tree → tree ∈ nodes →
        ∃ e, outcome (transformedRichText_registry s nodes c) = Rejected e)
  ∧ (∀ P children items (context : option Context),
        transformNodeToMapiRichText P (DomHtmlNode "img" attributes children)
          items context
        = MkAsync
            (Fulfilled [ "<img " ++ serializeKnownAttributes attributes ++ ">"
                           ++ join EmptyString items ++ "</img>" ])
            []).
Proof.
  intros Hsrc. split; [|split].
  - intros c children joined. by apply img_without_src.
  - intros c tree nodes s Hocc Hin.
    eapply registry_image_aborts; [|done..].
    intros joined. eexists. by rewrite img_without_src.
  - intros P children items context.
    rewrite default_branch; [done|]. unfold isImageWithSrc. by rewrite Hsrc.
Qed.

Lemma image_without_src_witness :
  truthy (get [("alt", Some "a robot")] "src") = false
  ∧ transformers_img (DomHtmlNode "img" [("alt", Some "a robot")] []) EmptyString
      (Some sampleClient)
    = MkAsync (Rejected (ThrownString "Invalid IMG tag: no src attribute.")) [].
Proof.
  split; [reflexivity|].
  apply (proj1 (image_without_src [("alt", Some "a robot")] eq_refl)).
Defined.

(** C3, as stated, fails for the callback pipeline: the identifier in the
    marker is the one the asset registration ([addAsset]) returns, not the
    one the byte upload returns.  A client whose byte upload returns
    [abc123] and whose registration returns [asset-9] yields a marker for
    [asset-9]. *)
Lemma marker_identifier_counterexample :
  uploadBinaryFile sampleClient (binaryFileRequest sampleResponse "/y/pic.png")
  = Fulfilled {| data_id := "abc123" |}
  ∧ outcome (transformedRichText samplePlatform inOrder [picture] sampleContext)
    = Fulfilled ("<figure data-asset-id=" ++ dq ++ "asset-9" ++ dq ++ "></figure>")
  ∧ outcome (transformedRichText samplePlatform inOrder [picture] sampleContext)
    ≠ Fulfilled ("<figure data-asset-id=" ++ dq ++ "abc123" ++ dq ++ "></figure>").
Proof. split; [|split]; [vm_compute; reflexivity.. | discriminate]. Qed.

(** C3, amended.  For every [img] element with a non-empty [src], given a
    client: when the fetch, the URL constructor and both storage-client
    calls succeed, the callback is fulfilled with exactly
    [<figure data-asset-id="ID"></figure>], where [ID] is the identifier
    returned by the asset registration, the registration having been given
    the identifier of the byte upload as its file reference; and when
    [uploadAssetFromUrl] succeeds, [transformers.img] is fulfilled with the
    same marker for the identifier that call returns. *)
Theorem image_success_marker (P : Platform) (c : ManagementClient)
    (attributes : Attributes) (response : AxiosResponse) (pathname : string)
    (u r : IdResponse) :
  truthy (get attributes "src") = true →
  axios_get P (template (get attributes "src")) = Fulfilled response →
  URL_pathname P (template (get attributes "src")) = Some pathname →
  uploadBinaryFile c (binaryFileRequest response pathname) = Fulfilled u →
  addAsset c (assetRequest (Some (data_id u)) pathname) = Fulfilled r →
  (∀ children items,
      outcome (transformNodeToMapiRichText P (DomHtmlNode "img" attributes children)
                 items (Some {| client := c |}))
      = Fulfilled [ "<figure data-asset-id=" ++ dq ++ data_id r ++ dq ++ "></figure>" ]
      ∧ last (events (transformNodeToMapiRichText P
                        (DomHtmlNode "img" attributes children) items
                        (Some {| client := c |})))
        = Some (AddAsset
                  {| file_reference :=
                       {| file_reference_id := Some (data_id u);
                          file_reference_type := "internal" |};
                     title := imageFilename pathname;
                     descriptions :=
                       [ {| language_codename := "default";
                            description := "Auto-generated asset" |} ] |}))
  ∧ (∀ s,
        outcome (transformedRichText P s [DomHtmlNode "img" attributes []]
                   (Some {| client := c |}))
        = Fulfilled ("<figure data-asset-id=" ++ dq ++ data_id r ++ dq ++ "></figure>"))
  ∧ (∀ c' r' children joined,
        uploadAssetFromUrl c'
          (assetFromUrlRequest (template (get attributes "src")) (get attributes "alt"))
        = Fulfilled r' →
        outcome (transformers_img (DomHtmlNode "img" attributes children) joined (Some c'))
        = Fulfilled ("<figure data-asset-id=" ++ dq ++ data_id r' ++ dq ++ "></figure>")).
Proof.
  intros Hsrc Hget Hurl Hup Hadd.
  assert (Hnode : ∀ children items,
             transformNodeToMapiRichText P (DomHtmlNode "img" attributes children)
               items (Some {| client := c |})
             = MkAsync (Fulfilled [figure (Some (data_id r))])
                 [ AxiosGet (template (get attributes "src"));
                   UploadBinaryFile (binaryFileRequest response pathname);
                   AddAsset (assetRequest (Some (data_id u)) pathname) ]).
  { intros children items. by apply image_success. }
  split; [|split].
  - intros children items. by rewrite Hnode.
  - intros s. apply transformedRichText_image. by rewrite Hnode.
  - intros c' r' children joined Hup'.
    by rewrite (img_success c' (DomHtmlNode "img" attributes children) joined r').
Qed.

Lemma image_success_marker_witness :
  outcome (transformNodeToMapiRichText samplePlatform picture [] sampleContext)
  = Fulfilled [ "<figure data-asset-id=" ++ dq ++ "asset-9" ++ dq ++ "></figure>" ].
Proof.
  exact (proj1 (proj1 (image_success_marker samplePlatform sampleClient
                         [("src", Some "http://x/y/pic.png")] sampleResponse
                         "/y/pic.png" {| data_id := "abc123" |}
                         {| data_id := "asset-9" |}
                         eq_refl eq_refl eq_refl eq_refl eq_refl) [] [])).
Defined.

(** ** File names *)

Lemma hasSlash_cons (c : ascii) (s : string) :
  hasSlash (String c s) = Ascii.eqb c slash || hasSlash s.
Proof. unfold hasSlash. simpl. by rewrite Ascii.eqb_sym. Qed.

Lemma split_without_slash (s : string) :
  hasSlash s = false → split slash s = [s].
Proof.
  induction s as [|c s IH]; [done|].
  rewrite hasSlash_cons. intros [Hc Hs]%orb_false_iff.
  simpl. rewrite Hc, IH; done.
Qed.

Lemma split_with_slash (s : string) :
  hasSlash s = true → ∃ seg next rest, split slash s = seg :: next :: rest.
Proof.
  induction s as [|c s IH]; [done|].
  rewrite hasSlash_cons. simpl. destruct (Ascii.eqb c slash) eqn:Hc; simpl.
  - intros _. destruct s as [|c' s']; [by exists EmptyString, EmptyString, []|].
    destruct (split slash (String c' s')) as [|seg rest] eqn:Hsplit.
    + simpl in Hsplit. by destruct (Ascii.eqb c' slash), (split slash s').
    + by exists EmptyString, seg, rest.
  - intros Hs. destruct (IH Hs) as (seg & next & rest & ->).
    by exists (String c seg), next, rest.
Qed.

Lemma finalSegment_without_slash (s : string) :
  hasSlash s = false → finalSegment s = s.
Proof.
  destruct s as [|c s]; [done|].
  rewrite hasSlash_cons. intros [Hc Hs]%orb_false_iff.
  simpl. by rewrite Hs, Hc.
Qed.

(** [path.split("/").pop()] is the final segment of the path. *)
Lemma pop_split_finalSegment (path : string) :
  pop (split slash path) = Some (finalSegment path).
Proof.
  unfold pop. induction path as [|c s IH]; [done|].
  simpl. destruct (hasSlash s) eqn:Hs.
  - destruct (split_with_slash s Hs) as (seg & next & rest & Hsplit).
    rewrite Hsplit in *. by destruct (Ascii.eqb c slash).
  - rewrite (split_without_slash s Hs). by destruct (Ascii.eqb c slash).
Qed.

(** The final segment has no slash in it, and the path is the segment
    alone or ends with a slash followed by the segment. *)
Lemma finalSegment_spec (path : string) :
  hasSlash (finalSegment path) = false
  ∧ (path = finalSegment path ∨ ∃ before, path = before ++ "/" ++ finalSegment path).
Proof.
  induction path as [|c s [IHslash IHpath]]; [by split; [|left]|].
  simpl. destruct (hasSlash s) eqn:Hs.
  - split; [done|]. right. destruct IHpath as [Heq | [before Heq]].
    + rewrite <- Heq in IHslash. congruence.
    + exists (String c before).
      change (String c s = String c (before ++ "/" ++ finalSegment s)).
      by f_equal.
  - destruct (Ascii.eqb c slash) eqn:Hc.
    + split; [done|]. right. exists EmptyString.
      by apply Ascii.eqb_eq in Hc as ->.
    + split; [by rewrite hasSlash_cons, Hc, Hs | by left].
Qed.

Lemma or_else_finalSegment (path placeholder : string) :
  or_else (pop (split slash path)) placeholder
  = if String.eqb (finalSegment path) EmptyString then placeholder
    else finalSegment path.
Proof. rewrite pop_split_finalSegment. by destruct (finalSegment path). Qed.

(** C8, as stated, fails for the registry transformer: [transformers.img]
    cuts the raw [src] string at its last slash, not the path of the URL.
    A query string stays in the file name, and a URL without a path gives
    its host as the file name, not the placeholder. *)
Lemma registry_filename_counterexample :
  (URL_pathname samplePlatform "http://x/y/pic.png?v=2" = Some "/y/pic.png"
   ∧ finalSegment "/y/pic.png" = "pic.png"
   ∧ events (transformers_img
               (DomHtmlNode "img" [("src", Some "http://x/y/pic.png?v=2")] [])
               EmptyString (Some sampleClient))
     = [UploadAssetFromUrl
          {| binaryFile_filename := "pic.png?v=2";
             fileUrl := "http://x/y/pic.png?v=2";
             asset_title := "pic.png?v=2";
             asset_descriptions :=
               [ {| language_codename := "default";
                    description := "No description" |} ] |}])
  ∧ (URL_pathname samplePlatform "https://example.com" = Some "/"
     ∧ finalSegment "/" = EmptyString
     ∧ binaryFile_filename (assetFromUrlRequest "https://example.com" None)
       = "example.com").
Proof. repeat split; vm_compute; reflexivity. Qed.

(** C8, amended.  On the success path of the callback pipeline the
    requests are the fetch, the byte upload and the asset registration, in
    this order; the file name given to the byte upload, and as title to the
    registration, is the final segment of the path of the URL, or
    [unknown-file] when that segment is empty; the content type is the
    [content-type] header of the fetch response, or
    [application/octet-stream] when the header is absent or empty.  In the
    registry pipeline [transformers.img] sends one request, with the URL
    itself and, as file name, what follows the last slash of the raw [src]
    string, or [untitled_file] when nothing follows it; it passes no
    content type. *)
Theorem image_upload_request (P : Platform) (c : ManagementClient)
    (attributes : Attributes) (response : AxiosResponse) (pathname : string)
    (u r : IdResponse) :
  truthy (get attributes "src") = true →
  axios_get P (template (get attributes "src")) = Fulfilled response →
  URL_pathname P (template (get attributes "src")) = Some pathname →
  uploadBinaryFile c (binaryFileRequest response pathname) = Fulfilled u →
  addAsset c (assetRequest (Some (data_id u)) pathname) = Fulfilled r →
  (∀ children items,
      events (transformNodeToMapiRichText P (DomHtmlNode "img" attributes children)
                items (Some {| client := c |}))
      = [ AxiosGet (template (get attributes "src"));
          UploadBinaryFile (binaryFileRequest response pathname);
          AddAsset (assetRequest (Some (data_id u)) pathname) ])
  ∧ filename (binaryFileRequest response pathname)
    = (if String.eqb (finalSegment pathname) EmptyString then "unknown-file"
       else finalSegment pathname)
  ∧ title (assetRequest (Some (data_id u)) pathname)
    = filename (binaryFileRequest response pathname)
  ∧ binaryData (binaryFileRequest response pathname) = response_data response
  ∧ (∀ ct, get (response_headers response) "content-type" = Some ct →
           ct ≠ EmptyString →
           contentType (binaryFileRequest response pathname) = ct)
  ∧ (get (response_headers response) "content-type" = None
     ∨ get (response_headers response) "content-type" = Some EmptyString →
     contentType (binaryFileRequest response pathname) = "application/octet-stream")
  ∧ (∀ c' r' children joined,
        uploadAssetFromUrl c'
          (assetFromUrlRequest (template (get attributes "src")) (get attributes "alt"))
        = Fulfilled r' →
        events (transformers_img (DomHtmlNode "img" attributes children) joined (Some c'))
        = [ UploadAssetFromUrl
              (assetFromUrlRequest (template (get attributes "src"))
                 (get attributes "alt")) ])
  ∧ binaryFile_filename
      (assetFromUrlRequest (template (get attributes "src")) (get attributes "alt"))
    = (if String.eqb (finalSegment (template (get attributes "src"))) EmptyString
       then "untitled_file"
       else finalSegment (template (get attributes "src")))
  ∧ fileUrl (assetFromUrlRequest (template (get attributes "src")) (get attributes "alt"))
    = template (get attributes "src").
Proof.
  intros Hsrc Hget Hurl Hup Hadd. repeat split.
  - intros children items.
    by rewrite (image_success P attributes children items c response pathname u r).
  - apply or_else_finalSegment.
  - intros ct Hct Hne. unfold binaryFileRequest. simpl. rewrite Hct.
    by destruct ct.
  - intros [Hct | Hct]; unfold binaryFileRequest; simpl; by rewrite Hct.
  - intros c' r' children joined Hup'.
    by rewrite (img_success c' (DomHtmlNode "img" attributes children) joined r').
  - apply or_else_finalSegment.
Qed.

Lemma image_upload_request_witness :
  events (transformNodeToMapiRichText samplePlatform picture [] sampleContext)
  = [ AxiosGet "http://x/y/pic.png";
      UploadBinaryFile
        {| binaryData := response_data sampleResponse;
           contentLength := 4;
           contentType := "image/png";
           filename := "pic.png" |};
      AddAsset (assetRequest (Some "abc123") "/y/pic.png") ].
Proof.
  exact (proj1 (image_upload_request samplePlatform sampleClient
                  [("src", Some "http://x/y/pic.png")] sampleResponse
                  "/y/pic.png" {| data_id := "abc123" |}
                  {| data_id := "asset-9" |}
                  eq_refl eq_refl eq_refl eq_refl eq_refl) [] []).
Defined.

(** ** The default branch *)

Lemma knownAttributes_allowListedOnly (attributes : Attributes) :
  allowListedOnly attributes = true → knownAttributes attributes = attributes.
Proof.
  unfold knownAttributes. induction attributes as [|[key value] rest IH]; [done|].
  cbn [allowListedOnly forallb List.filter].
  intros [[Hkey _]%andb_true_iff Hrest]%andb_true_iff.
  rewrite Hkey. f_equal. by apply IH.
Qed.

(** Tokens joined by single spaces after a space are the tokens each
    preceded by a space. *)
Lemma spaced_tokens (entry : string * option string) (rest : Attributes) :
  " " ++ String.concat " " (map attributeToken (entry :: rest))
  = String.concat EmptyString
      (map (fun entry => " " ++ attributeToken entry) (entry :: rest)).
Proof.
  revert entry. induction rest as [|next rest IH]; intros entry.
  - done.
  - change (String.concat " " (map attributeToken (entry :: next :: rest)))
      with (attributeToken entry ++ " "
              ++ String.concat " " (map attributeToken (next :: rest))).
    rewrite IH.
    change (map (λ entry0, " " ++ attributeToken entry0) (entry :: next :: rest))
      with ((" " ++ attributeToken entry)
              :: map (λ entry0, " " ++ attributeToken entry0) (next :: rest)).
    by rewrite (join_cons (" " ++ attributeToken entry)).
Qed.

Lemma flat_singletons {A} (f : A → string) (l : list A) :
  flat (map (λ x, [f x]) l) = map f l.
Proof. induction l as [|x l IH]; [done|]. unfold flat in *. simpl. by rewrite IH. Qed.

(** Every tree of re-emitted elements with attributes comes out as its own
    markup. *)
(** With allow-listed attributes only, each with a value, the markup of
    the attributes is the code's tokens, each after a space. *)
Lemma markup_tokens (attributes : Attributes) :
  allowListedOnly attributes = true →
  map markupAttribute attributes
  = map (fun entry => " " ++ attributeToken entry) attributes.
Proof.
  induction attributes as [|[key [value|]] rest IH]; [done| |].
  - cbn [allowListedOnly forallb]. intros [_ Hrest]%andb_true_iff.
    cbn [map]. f_equal. by apply IH.
  - cbn [allowListedOnly forallb]. intros [[_ Hvalue]%andb_true_iff _]%andb_true_iff.
    discriminate Hvalue.
Qed.

(** The opening tag the default branch prints is the opening tag of the
    markup as soon as there is an attribute. *)
Lemma default_opening_tag (tagName : string) (attributes : Attributes) (rest : string) :
  allowListedOnly attributes = true →
  attributes ≠ [] →
  "<" ++ tagName ++ " " ++ serializeKnownAttributes attributes ++ ">" ++ rest
  = openingTag tagName attributes ++ rest.
Proof.
  intros Hallowed Hsome. unfold openingTag, serializeKnownAttributes, join.
  rewrite knownAttributes_allowListedOnly, markup_tokens by done.
  destruct attributes as [|entry others]; [done|].
  rewrite <- spaced_tokens. by rewrite !string_app_assoc.
Qed.

(** The default branch on one element with allow-listed attributes, at
    least one: its own tags, exactly, around the items it is given. *)
Lemma reemitted_element (P : Platform) (context : option Context) tagName attributes
    children items :
  isImageWithSrc (DomHtmlNode tagName attributes children) = false →
  allowListedOnly attributes = true →
  attributes ≠ [] →
  transformNodeToMapiRichText P (DomHtmlNode tagName attributes children) items context
  = MkAsync
      (Fulfilled [ openingTag tagName attributes ++ join EmptyString items
                     ++ "</" ++ tagName ++ ">" ])
      [].
Proof.
  intros Hguard Hallowed Hsome. rewrite default_branch by done.
  by rewrite default_opening_tag.
Qed.

Lemma reemitted_node (P : Platform) (context : option Context) (node : DomNode) :
  reemittedWithAttributes node = true →
  outcome (nodeTask (transformNodeToMapiRichText P) context inOrder node)
  = Fulfilled [outerHtml node].
Proof.
  induction node as [content | tagName attributes children IH] using DomNode_ind;
    [done|].
  cbn [reemittedWithAttributes].
  intros [[[Hguard Hallowed]%andb_true_iff Hsome]%andb_true_iff Hchildren]%andb_true_iff.
  apply negb_true_iff in Hguard.
  apply nodeTask_element_fulfilled; [apply all_scheduleFree|].
  exists (map (λ child, [outerHtml child]) children). split.
  - clear -IH Hchildren. induction IH as [|child children Hchild _ IHchildren].
    + constructor.
    + simpl in Hchildren. apply andb_true_iff in Hchildren as [Hc Hcs].
      constructor; [by apply Hchild | by apply IHchildren].
  - rewrite reemitted_element; [|done|done|by destruct attributes].
    cbn [outcome outerHtml]. by rewrite flat_singletons.
Qed.

(** C6, as stated, fails for an element with zero attributes: the default
    branch always prints a space after the tag name, so [<span>hi</span>]
    comes out as [<span >hi</span>]. *)
Lemma default_round_trip_counterexample :
  outerHtml (DomHtmlNode "span" [] [DomTextNode "hi"]) = "<span>hi</span>"
  ∧ outcome (transformedRichText samplePlatform inOrder
               [DomHtmlNode "span" [] [DomTextNode "hi"]] sampleContext)
    = Fulfilled "<span >hi</span>".
Proof. split; vm_compute; reflexivity. Qed.

(** C6, amended.  For every element that falls to the default branch (any
    tag but an [img] with a [src]) and carries only allow-listed
    attributes, each with a value, and at least one:

    - the callback re-emits the element's own tags and attributes exactly,
      [<tag k="v" ...>] and [</tag>], around the already resolved items of
      its children, whatever those children are, and emits no event;
    - so the rich text of the element is its opening tag, the rich text of
      its children, and its closing tag: output nesting mirrors input
      nesting, under every schedule;
    - and when every element below it meets the same condition, the rich
      text of the element is exactly its own markup.

    An element with zero attributes is re-emitted with a single space after
    its tag name. *)
Theorem default_round_trip (P : Platform) (context : option Context) (s : Sched) :
  (∀ tagName attributes children items,
      isImageWithSrc (DomHtmlNode tagName attributes children) = false →
      allowListedOnly attributes = true →
      attributes ≠ [] →
      transformNodeToMapiRichText P (DomHtmlNode tagName attributes children)
        items context
      = MkAsync
          (Fulfilled [ openingTag tagName attributes ++ join EmptyString items
                         ++ "</" ++ tagName ++ ">" ])
          [])
  ∧ (∀ tagName attributes children inner,
        isImageWithSrc (DomHtmlNode tagName attributes children) = false →
        allowListedOnly attributes = true →
        attributes ≠ [] →
        outcome (transformedRichText P s children context) = Fulfilled inner →
        outcome (transformedRichText P s [DomHtmlNode tagName attributes children]
                   context)
        = Fulfilled (openingTag tagName attributes ++ inner ++ "</" ++ tagName ++ ">"))
  ∧ (∀ node,
        reemittedWithAttributes node = true →
        outcome (transformedRichText P s [node] context) = Fulfilled (outerHtml node))
  ∧ (∀ tagName children items,
        transformNodeToMapiRichText P (DomHtmlNode tagName [] children) items context
        = MkAsync
            (Fulfilled [ "<" ++ tagName ++ " >" ++ join EmptyString items
                           ++ "</" ++ tagName ++ ">" ])
            []).
Proof.
  split; [|split; [|split]].
  - intros tagName attributes children items. apply reemitted_element.
  - intros tagName attributes children inner Hguard Hallowed Hsome Hinner.
    apply transformedRichText_fulfilled in Hinner as (out & Hout & ->).
    apply traverse_fulfilled in Hout as (vs & Hvs & ->).
    apply transformedRichText_fulfilled.
    exists [ openingTag tagName attributes ++ join EmptyString (flat vs)
               ++ "</" ++ tagName ++ ">" ].
    split; [|by rewrite join_cons, string_app_nil_r].
    apply traverse_node, nodeTask_element_fulfilled; [apply all_scheduleFree|].
    exists vs. split; [done|]. by rewrite reemitted_element.
  - intros node Hnode. apply transformedRichText_fulfilled. exists [outerHtml node].
    split; [|by rewrite join_cons, string_app_nil_r].
    by apply traverse_node, reemitted_node.
  - intros tagName children items. rewrite default_branch; [done|].
    unfold isImageWithSrc. simpl. apply andb_false_r.
Qed.

(** The exact round trip of [<span title="x">hi</span>]; an element with a
    title around an element without attributes, whose own tags still come
    out exactly; and an element with a title around an image, whose own
    tags come out exactly around the image's marker. *)
Lemma default_round_trip_witness :
  (reemittedWithAttributes spanHi = true
   ∧ outcome (transformedRichText samplePlatform inOrder [spanHi] sampleContext)
     = Fulfilled ("<span title=" ++ dq ++ "x" ++ dq ++ ">hi</span>"))
  ∧ outcome (transformedRichText samplePlatform inOrder
               [DomHtmlNode "span" [("title", Some "x")]
                  [DomHtmlNode "b" [] [DomTextNode "hi"]]] sampleContext)
    = Fulfilled ("<span title=" ++ dq ++ "x" ++ dq ++ ">" ++ "<b >hi</b>" ++ "</span>")
  ∧ outcome (transformedRichText samplePlatform inOrder
               [DomHtmlNode "div" [("title", Some "t")] [picture]] sampleContext)
    = Fulfilled ("<div title=" ++ dq ++ "t" ++ dq ++ ">"
                 ++ ("<figure data-asset-id=" ++ dq ++ "asset-9" ++ dq ++ "></figure>")
                 ++ "</div>").
Proof.
  pose proof (default_round_trip samplePlatform sampleContext inOrder)
    as (_ & Helement & Htree & _).
  split; [split; [reflexivity | exact (Htree spanHi eq_refl)]|]. split.
  - refine (Helement "span" [("title", Some "x")]
              [DomHtmlNode "b" [] [DomTextNode "hi"]] "<b >hi</b>"
              eq_refl eq_refl _ _); [discriminate | vm_compute; reflexivity].
  - refine (Helement "div" [("title", Some "t")] [picture]
              ("<figure data-asset-id=" ++ dq ++ "asset-9" ++ dq ++ "></figure>")
              eq_refl eq_refl _ _); [discriminate | vm_compute; reflexivity].
Defined.

(** ** Document order *)

(** C9.  Sibling results are joined by document position, whatever the
    completion order: a traversal fulfilled under one schedule is fulfilled
    with the same result under every other; for siblings [A] before [B] the
    result is what precedes [A], [A]'s own contribution, what lies between,
    [B]'s own contribution, and what follows, in this order, both as the
    flattened array and as the joined string; and the items a parent's
    transformer receives are its children's results in document order. *)
Theorem sibling_order_is_document_order {C : Type}
    (transform : TransformNodeFunctionAsync C) (context : option C)
    (s s' : Sched) (before between after : list DomNode) (A B : DomNode)
    (out : list string) :
  outcome (traverseAndTransformNodesAsync transform context s
             (before ++ A :: between ++ B :: after))
  = Fulfilled out →
  outcome (traverseAndTransformNodesAsync transform context s'
             (before ++ A :: between ++ B :: after))
  = Fulfilled out
  ∧ (∃ outBefore outA outBetween outB outAfter,
        outcome (traverseAndTransformNodesAsync transform context s' before)
        = Fulfilled outBefore
        ∧ outcome (traverseAndTransformNodesAsync transform context s' [A])
          = Fulfilled outA
        ∧ outcome (traverseAndTransformNodesAsync transform context s' between)
          = Fulfilled outBetween
        ∧ outcome (traverseAndTransformNodesAsync transform context s' [B])
          = Fulfilled outB
        ∧ outcome (traverseAndTransformNodesAsync transform context s' after)
          = Fulfilled outAfter
        ∧ out = (outBefore ++ outA ++ outBetween ++ outB ++ outAfter)%list
        ∧ join EmptyString out
          = join EmptyString outBefore ++ join EmptyString outA
              ++ join EmptyString outBetween ++ join EmptyString outB
              ++ join EmptyString outAfter)
  ∧ (∀ tagName attributes children v,
        outcome (nodeTask transform context s (DomHtmlNode tagName attributes children))
        = Fulfilled v →
        ∃ items,
          outcome (traverseAndTransformNodesAsync transform context s' children)
          = Fulfilled items
          ∧ outcome (transform (DomHtmlNode tagName attributes children) items context)
            = Fulfilled v).
Proof.
  intros Hout. split; [by eapply traverse_schedule_irrelevant|]. split.
  - apply (traverse_app _ _ s s' s') in Hout as (outBefore & out1 & HB & H1 & ->).
    change (A :: between ++ B :: after)%list
      with ([A] ++ (between ++ B :: after))%list in H1.
    apply (traverse_app _ _ s' s' s') in H1 as (outA & out2 & HA & H2 & ->).
    apply (traverse_app _ _ s' s' s') in H2 as (outBetween & out3 & HBt & H3 & ->).
    change (B :: after)%list with ([B] ++ after)%list in H3.
    apply (traverse_app _ _ s' s' s') in H3 as (outB & outAfter & HBn & HAf & ->).
    exists outBefore, outA, outBetween, outB, outAfter.
    repeat (split; [done|]). by rewrite !join_app.
  - intros tagName attributes children v Hv.
    apply nodeTask_element_fulfilled in Hv as (vs & Hvs & Hv); [|apply all_scheduleFree].
    exists (flat vs). split; [|done]. apply traverse_fulfilled. by exists vs.
Qed.

Lemma sibling_order_is_document_order_witness :
  outcome (traverseAndTransformNodesAsync (transformNodeToMapiRichText samplePlatform)
             (Some {| client := namingClient |}) secondFirst [picture; logo])
  = Fulfilled
      [ "<figure data-asset-id=" ++ dq ++ "asset-pic.png" ++ dq ++ "></figure>";
        "<figure data-asset-id=" ++ dq ++ "asset-logo.svg" ++ dq ++ "></figure>" ].
Proof.
  refine (proj1 (sibling_order_is_document_order
                   (transformNodeToMapiRichText samplePlatform)
                   (Some {| client := namingClient |}) inOrder secondFirst
                   [] [] [] picture logo _ _)).
  vm_compute. reflexivity.
Defined.

(** Under the schedule in which the second image completes first, the
    requests go out in completion order and the rich text stays in document
    order. *)
Example completion_order_shows_in_events_only :
  transformedRichText samplePlatform secondFirst [picture; logo]
    (Some {| client := namingClient |})
  = MkAsync
      (Fulfilled
         ("<figure data-asset-id=" ++ dq ++ "asset-pic.png" ++ dq ++ "></figure>"
          ++ "<figure data-asset-id=" ++ dq ++ "asset-logo.svg" ++ dq ++ "></figure>"))
      [ AxiosGet "http://x/z/logo.svg";
        UploadBinaryFile (binaryFileRequest sampleResponse "/z/logo.svg");
        AddAsset (assetRequest (Some "file-logo.svg") "/z/logo.svg");
        AxiosGet "http://x/y/pic.png";
        UploadBinaryFile (binaryFileRequest sampleResponse "/y/pic.png");
        AddAsset (assetRequest (Some "file-pic.png") "/y/pic.png") ].
Proof. vm_compute. reflexivity. Qed.

(** ** The [i] transformer *)

(** C10.  The transformer registered under [i] is always fulfilled with
    [<em>], the resolved children, [</em>]: the node, so its tag name and
    every attribute, plays no part, and neither does the context; and so an
    [i] element of a document comes out as [em] around the rich text of its
    children. *)
Theorem transformers_i_em (node : DomNode) (children : string)
    (context : option ManagementClient) :
  transformers !! "i" = Some transformers_i
  ∧ transformers_i node children context
    = MkAsync (Fulfilled ("<em>" ++ children ++ "</em>")) []
  ∧ (∀ node' context', transformers_i node' children context'
                       = transformers_i node children context)
  ∧ (∀ s attributes kids inner,
        outcome (nodesToHTMLAsync s kids transformers context) = Fulfilled inner →
        outcome (nodesToHTMLAsync s [DomHtmlNode "i" attributes kids] transformers context)
        = Fulfilled ("<em>" ++ inner ++ "</em>")).
Proof.
  split; [apply transformers_lookup_i|]. split; [done|]. split; [done|].
  intros s attributes kids inner Hkids.
  unfold nodesToHTMLAsync in *.
  apply outcome_fmap_fulfilled in Hkids as (out & Hout & ->).
  apply traverse_fulfilled in Hout as (vs & Hvs & ->).
  apply outcome_fmap_fulfilled.
  exists ["<em>" ++ join EmptyString (flat vs) ++ "</em>"].
  split; [|by rewrite join_cons, string_app_nil_r].
  apply traverse_node, nodeTask_element_fulfilled; [apply all_scheduleFree|].
  exists vs. split; [done|].
  unfold registryTransform. rewrite transformers_lookup_i.
  apply outcome_fmap_fulfilled. by eexists.
Qed.

Lemma transformers_i_em_witness :
  outcome (nodesToHTMLAsync inOrder
             [DomHtmlNode "i" [("title", Some "x"); ("class", Some "y")]
                [DomTextNode "italic text"]]
             transformers (Some sampleClient))
  = Fulfilled "<em>italic text</em>".
Proof.
  refine (proj2 (proj2 (proj2 (transformers_i_em (DomTextNode EmptyString) EmptyString
                                 (Some sampleClient))))
            inOrder [("title", Some "x"); ("class", Some "y")]
            [DomTextNode "italic text"] "italic text" _).
  vm_compute. reflexivity.
Defined.

(** ** The attribute filter on examples *)

Lemma serializeKnownAttributes_allow_list_witness :
  serializeKnownAttributes [("href", Some "x"); ("onclick", Some "y"); ("title", Some "t")]
  = "href=" ++ dq ++ "x" ++ dq ++ " title=" ++ dq ++ "t" ++ dq.
Proof.
  rewrite (proj1 (serializeKnownAttributes_allow_list
                    [("href", Some "x"); ("onclick", Some "y"); ("title", Some "t")])).
  vm_compute. reflexivity.
Defined.

Lemma serializeKnownAttributes_idempotent_witness :
  serializeKnownAttributes
    (knownAttributes [("href", Some "x"); ("onclick", Some "y")])
  = serializeKnownAttributes [("href", Some "x"); ("onclick", Some "y")].
Proof.
  exact (proj1 (proj2 (serializeKnownAttributes_idempotent
                         [("href", Some "x"); ("onclick", Some "y")]))).
Defined.

(** The testable property of section 8: [onclick] dropped, [href] kept. *)
Example unrecognized_attribute_dropped :
  outcome (transformedRichText samplePlatform inOrder
             [DomHtmlNode "a" [("href", Some "x"); ("onclick", Some "y")]
                [DomTextNode "t"]] sampleContext)
  = Fulfilled ("<a href=" ++ dq ++ "x" ++ dq ++ ">t</a>").
Proof. vm_compute. reflexivity. Qed.

(** * More of the code *)

(** ** [findNodeByClassName] *)

Lemma firstFound_cons {A B} (f : A → option B) (x : A) (l : list A) :
  firstFound f (x :: l)
  = match f x with Some found => Some found | None => firstFound f l end.
Proof.
  unfold firstFound. simpl. destruct (f x) as [found|]; [|done].
  induction l as [|y l IH]; [done | apply IH].
Qed.

Lemma firstFound_app {A B} (f : A → option B) (l1 l2 : list A) :
  firstFound f (l1 ++ l2)
  = match firstFound f l1 with Some found => Some found | None => firstFound f l2 end.
Proof.
  induction l1 as [|x l1 IH]; [done|].
  rewrite <- app_comm_cons, !firstFound_cons. by destruct (f x).
Qed.

Lemma firstFound_elements (className : string) (nodes : list DomNode) :
  firstFound (findInNode className) (List.filter isElement nodes)
  = firstFound (findInNode className) nodes.
Proof.
  induction nodes as [|[content | tagName attributes children] nodes IH]; [done| |].
  - simpl. by rewrite firstFound_cons.
  - simpl. by rewrite !firstFound_cons, IH.
Qed.

(** The equation of the source: a matching element is returned, any other
    element is searched through its children. *)
Lemma findInNode_element (className : string) tagName attributes children :
  findInNode className (DomHtmlNode tagName attributes children)
  = if hasClass className (DomHtmlNode tagName attributes children)
    then Some (DomHtmlNode tagName attributes children)
    else findNodeByClassName children className.
Proof.
  unfold findNodeByClassName. rewrite firstFound_elements. done.
Qed.

Lemma find_app {A} (p : A → bool) (l1 l2 : list A) :
  List.find p (l1 ++ l2)
  = match List.find p l1 with Some x => Some x | None => List.find p l2 end.
Proof. induction l1 as [|x l1 IH]; simpl; [done|]. by destruct (p x). Qed.

Lemma findInNode_find (className : string) (node : DomNode) :
  findInNode className node = List.find (hasClass className) (elementsOf node).
Proof.
  induction node as [content | tagName attributes children IH] using DomNode_ind;
    [done|].
  cbn [findInNode elementsOf List.find].
  destruct (hasClass className (DomHtmlNode tagName attributes children)); [done|].
  induction IH as [|child children Hchild _ IHchildren]; [done|].
  rewrite firstFound_cons. cbn [flat_map]. rewrite find_app, Hchild, IHchildren.
  done.
Qed.

Lemma elementsOf_occursIn (node tree : DomNode) :
  node ∈ elementsOf tree ↔ isElement node = true ∧ occursIn node tree.
Proof.
  split.
  - revert node.
    induction tree as [content | tagName attributes children IH] using DomNode_ind;
      intros node Hin.
    + by apply elem_of_nil in Hin.
    + cbn [elementsOf] in Hin. apply elem_of_cons in Hin as [-> | Hin].
      { split; [done | constructor]. }
      apply list_elem_of_In, in_flat_map in Hin as (child & Hchild & Hin).
      apply list_elem_of_In in Hchild, Hin.
      rewrite Forall_forall in IH.
      destruct (IH child Hchild node Hin) as [Helem Hocc].
      split; [done|]. by econstructor.
  - intros [Helem Hocc].
    induction Hocc as [|tagName attributes children child Hchild _ IH].
    + destruct node; [done | by left].
    + cbn [elementsOf]. right.
      apply list_elem_of_In, in_flat_map. exists child.
      split; by apply list_elem_of_In.
Qed.

Lemma elementsIn_occursIn (node : DomNode) (nodes : list DomNode) :
  node ∈ elementsIn nodes
  ↔ isElement node = true ∧ ∃ tree, tree ∈ nodes ∧ occursIn node tree.
Proof.
  unfold elementsIn. rewrite list_elem_of_In, in_flat_map. split.
  - intros (tree & Htree & Hin). apply list_elem_of_In in Htree, Hin.
    apply elementsOf_occursIn in Hin as [Helem Hocc]. split; [done|]. by exists tree.
  - intros (Helem & tree & Htree & Hocc). exists tree.
    split; apply list_elem_of_In; [done|]. by apply elementsOf_occursIn.
Qed.

Lemma hasClass_spec (className : string) (node : DomNode) :
  hasClass className node = true ↔ get (node_attributes node) "class" = Some className.
Proof.
  unfold hasClass. destruct (get _ _) as [value|]; [|done].
  rewrite String.eqb_eq. split; [by intros -> | by intros [= ->]].
Qed.

Lemma findNodeByClassName_find (parsed : list DomNode) (className : string) :
  findNodeByClassName parsed className
  = List.find (hasClass className) (elementsIn parsed).
Proof.
  unfold findNodeByClassName, elementsIn. rewrite firstFound_elements.
  induction parsed as [|node parsed IH]; [done|].
  rewrite firstFound_cons. cbn [flat_map]. by rewrite find_app, findInNode_find, IH.
Qed.


(** X1.  What [findNodeByClassName] returns is an element of the parsed
    forest, at any depth, whose [class] attribute is exactly the name asked
    for. *)
Theorem findNodeByClassName_found (parsed : list DomNode) (className : string)
    (node : DomNode) :
  findNodeByClassName parsed className = Some node →
  isElement node = true
  ∧ get (node_attributes node) "class" = Some className
  ∧ ∃ tree, tree ∈ parsed ∧ occursIn node tree.
Proof.
  rewrite findNodeByClassName_find. intros [Hin Hclass]%find_some.
  apply list_elem_of_In, elementsIn_occursIn in Hin as [Helem Hocc].
  split; [done|]. split; [by apply hasClass_spec | done].
Qed.

Lemma findNodeByClassName_found_witness :
  findNodeByClassName samplePage "content__body" = Some sampleBody
  ∧ get (node_attributes sampleBody) "class" = Some "content__body"
  ∧ ∃ tree, tree ∈ samplePage ∧ occursIn sampleBody tree.
Proof.
  assert (H : findNodeByClassName samplePage "content__body" = Some sampleBody)
    by reflexivity.
  split; [exact H|].
  exact (proj2 (findNodeByClassName_found samplePage "content__body" sampleBody H)).
Defined.

(** X2.  [findNodeByClassName] returns [undefined] exactly when no node of
    the forest, at any depth, has the name asked for as its [class]
    attribute. *)
Theorem findNodeByClassName_none (parsed : list DomNode) (className : string) :
  findNodeByClassName parsed className = None
  ↔ ∀ tree node, tree ∈ parsed → occursIn node tree →
                 get (node_attributes node) "class" ≠ Some className.
Proof.
  rewrite findNodeByClassName_find. split.
  - intros Hnone tree node Htree Hocc Hclass.
    assert (Helem : isElement node = true) by (by destruct node).
    assert (Hin : node ∈ elementsIn parsed).
    { apply elementsIn_occursIn. split; [done|]. by exists tree. }
    apply list_elem_of_In in Hin.
    pose proof (find_none _ _ Hnone node Hin) as Hfalse.
    apply hasClass_spec in Hclass. congruence.
  - intros Hall. destruct (List.find _ _) as [node|] eqn:Hfind; [|done].
    apply find_some in Hfind as [Hin Hclass].
    apply list_elem_of_In, elementsIn_occursIn in Hin as (_ & tree & Htree & Hocc).
    apply hasClass_spec in Hclass. by destruct (Hall tree node Htree Hocc).
Qed.

(** X3.  [findNodeByClassName] returns the first element in document order
    (a parent before its descendants, siblings left to right) whose
    [class] attribute is exactly the name asked for. *)
Theorem findNodeByClassName_first_in_document_order (parsed : list DomNode)
    (className : string) :
  findNodeByClassName parsed className
  = List.find (fun node => match get (node_attributes node) "class" with
                           | Some value => String.eqb value className
                           | None => false
                           end)
      (elementsIn parsed).
Proof. apply findNodeByClassName_find. Qed.

(** X4.  Searching a forest made of two parts is searching the first part
    and, only when nothing is found there, the second. *)
Theorem findNodeByClassName_app (before after : list DomNode) (className : string) :
  findNodeByClassName (before ++ after) className
  = match findNodeByClassName before className with
    | Some node => Some node
    | None => findNodeByClassName after className
    end.
Proof.
  unfold findNodeByClassName. by rewrite List.filter_app, firstFound_app.
Qed.

(** ** [migration.run], callback pipeline *)

Ltac run_migration :=
  cbv beta iota zeta delta
    [result trace app mbind Migration_bind mret Migration_ret throws request
     awaitTraversal fetchHtml firstText].

(** X5.  When the page has no element of class [content__body], [run]
    rejects with the error [No rich text content found.] right after
    loading the page: nothing is fetched, uploaded or created. *)
Theorem run_without_content (T : Tools) (P : Platform) (s : Sched)
    (apiClient : ApiClient) (htmlString : string) :
  page_content T pageUrl = Fulfilled htmlString →
  findNodeByClassName (parse T htmlString) "content__body" = None →
  run T P s apiClient
  = MkMigration (Rejected (ThrownError "Error" "No rich text content found."))
      [FetchHtml pageUrl].
Proof.
  intros Hpage Hbody. unfold run. run_migration. rewrite Hpage.
  run_migration. rewrite Hbody. reflexivity.
Qed.

Lemma run_without_content_witness :
  run (sampleTools [sampleHeading]) samplePlatform inOrder (sampleApiClient sampleClient)
  = MkMigration (Rejected (ThrownError "Error" "No rich text content found."))
      [FetchHtml pageUrl].
Proof.
  exact (run_without_content (sampleTools [sampleHeading]) samplePlatform inOrder
           (sampleApiClient sampleClient) "<html>" eq_refl eq_refl).
Defined.

(** X6.  When the page has its content block and no first child of a
    [block__heading] element (no such element, or an empty one), [run]
    is rejected with a [TypeError] for reading [children] of [undefined],
    before any image is fetched and before anything is created. *)
Theorem run_without_heading (T : Tools) (P : Platform) (s : Sched)
    (apiClient : ApiClient) (htmlString : string) (body : list DomNode) :
  page_content T pageUrl = Fulfilled htmlString →
  childrenOf (findNodeByClassName (parse T htmlString) "content__body") = Some body →
  childAt 0 (findNodeByClassName (parse T htmlString) "block__heading") = None →
  run T P s apiClient
  = MkMigration
      (Rejected (ThrownError "TypeError"
                   "Cannot read properties of undefined (reading 'children')"))
      [FetchHtml pageUrl].
Proof.
  intros Hpage Hbody Hheading. unfold run. run_migration. rewrite Hpage.
  run_migration. rewrite Hbody, Hheading. reflexivity.
Qed.

Lemma run_without_heading_witness :
  run (sampleTools headlessPage) samplePlatform inOrder (sampleApiClient sampleClient)
  = MkMigration
      (Rejected (ThrownError "TypeError"
                   "Cannot read properties of undefined (reading 'children')"))
      [FetchHtml pageUrl].
Proof.
  exact (run_without_heading (sampleTools headlessPage) samplePlatform inOrder
           (sampleApiClient sampleClient) "<html>"
           [DomHtmlNode "p" [("class", Some "lead")] [DomTextNode "hello"]; picture]
           eq_refl eq_refl eq_refl).
Defined.

Ltac run_migration_steps :=
  cbv beta iota zeta delta
    [result trace mbind Migration_bind mret Migration_ret throws request
     awaitTraversal fetchHtml firstText].

Ltac trace_members H :=
  repeat first
    [ rewrite elem_of_app in H
    | rewrite elem_of_cons in H
    | rewrite elem_of_nil in H
    | rewrite list_elem_of_fmap in H ];
  repeat match type of H with
         | _ ∨ _ => destruct H as [H | H]
         | ∃ _, _ ∧ _ => destruct H as (? & H & ?)
         | False => destruct H
         end;
  try discriminate H.

(** X7.  Whatever the page, the platform and the client do, a language
    variant is upserted by [run] only after the content block was found,
    its rich text was produced and the item was created; it is upserted
    under the identifier the item creation returned, in the language
    [default], with the title, the date and that rich text as its three
    elements. *)
Theorem run_upsert_invariant (T : Tools) (P : Platform) (s : Sched)
    (apiClient : ApiClient) (d : LanguageVariantData) :
  UpsertLanguageVariant d ∈ trace (run T P s apiClient) →
  ∃ htmlString body html added title date,
    page_content T pageUrl = Fulfilled htmlString
    ∧ childrenOf (findNodeByClassName (parse T htmlString) "content__body") = Some body
    ∧ outcome (transformedRichText P s body (Some {| client := assets apiClient |}))
      = Fulfilled html
    ∧ addContentItem apiClient {| item_name := title; item_type_codename := "article" |}
      = Fulfilled added
    ∧ AddContentItem {| item_name := title; item_type_codename := "article" |}
      ∈ trace (run T P s apiClient)
    ∧ d = {| byItemId := data_id added;
             byLanguageCodename := "default";
             elements :=
               [ textElement title "title";
                 dateTimeElement date "UTC" "publishing_date";
                 richTextElement html "content" ] |}.
Proof.
  unfold run. run_migration_steps.
  destruct (page_content T pageUrl) as [htmlString| |] eqn:Hpage;
    run_migration_steps; [|intros H; trace_members H..].
  destruct (childrenOf (findNodeByClassName (parse T htmlString) "content__body"))
    as [body|] eqn:Hbody;
    run_migration_steps; [|intros H; trace_members H].
  destruct (childAt 0 _) as [titleNode|];
    run_migration_steps; [|intros H; trace_members H].
  destruct (node_children titleNode) as [titleChildren|];
    run_migration_steps; [|intros H; trace_members H].
  destruct (childAt 1 _) as [dateNode|];
    run_migration_steps; [|intros H; trace_members H].
  destruct (node_children dateNode) as [dateChildren|];
    run_migration_steps; [|intros H; trace_members H].
  destruct (outcome (transformedRichText P s body _)) as [html| |] eqn:Hhtml;
    run_migration_steps; [|intros H; trace_members H..].
  match goal with
  | |- context [addContentItem apiClient ?item] =>
      destruct (addContentItem apiClient item) as [added| |] eqn:Hadd
  end;
    run_migration_steps; [|intros H; trace_members H..].
  intros H. trace_members H. injection H as ->.
  eexists htmlString, body, html, added, _, _.
  repeat (split; [done|]). split; [|done].
  rewrite !elem_of_app, !elem_of_cons. tauto.
Qed.

Lemma run_upsert_invariant_witness :
  ∃ htmlString body html added title date,
    page_content (sampleTools samplePage) pageUrl = Fulfilled htmlString
    ∧ childrenOf (findNodeByClassName (parse (sampleTools samplePage) htmlString)
                    "content__body") = Some body
    ∧ outcome (transformedRichText samplePlatform inOrder body
                 (Some {| client := assets (sampleApiClient sampleClient) |}))
      = Fulfilled html
    ∧ addContentItem (sampleApiClient sampleClient)
        {| item_name := title; item_type_codename := "article" |}
      = Fulfilled added
    ∧ AddContentItem {| item_name := title; item_type_codename := "article" |}
      ∈ trace (run (sampleTools samplePage) samplePlatform inOrder
                 (sampleApiClient sampleClient))
    ∧ {| byItemId := "item-1";
         byLanguageCodename := "default";
         elements :=
           [ textElement "A robot arm" "title";
             dateTimeElement "2024-05-01" "UTC" "publishing_date";
             richTextElement
               ("<p >hello</p><figure data-asset-id=" ++ dq ++ "asset-9" ++ dq
                  ++ "></figure>")
               "content" ] |}
      = {| byItemId := data_id added;
           byLanguageCodename := "default";
           elements :=
             [ textElement title "title";
               dateTimeElement date "UTC" "publishing_date";
               richTextElement html "content" ] |}.
Proof.
  apply (run_upsert_invariant (sampleTools samplePage) samplePlatform inOrder
           (sampleApiClient sampleClient)).
  vm_compute. do 5 apply list_elem_of_further. apply list_elem_of_here.
Defined.

(** X8.  No image can make [run] fail: when the page has its content
    block and its heading block with two element children, every call of
    the image branch settles (fulfilled or rejected), and the client
    creates the item and upserts the variant, [run] is fulfilled, however
    many fetches, uploads or registrations were rejected. *)
Theorem run_survives_image_failures (T : Tools) (P : Platform) (s : Sched)
    (apiClient : ApiClient) (htmlString : string) (body : list DomNode)
    (titleNode dateNode : DomNode) (titleChildren dateChildren : list DomNode) :
  page_content T pageUrl = Fulfilled htmlString →
  childrenOf (findNodeByClassName (parse T htmlString) "content__body") = Some body →
  childAt 0 (findNodeByClassName (parse T htmlString) "block__heading") = Some titleNode →
  node_children titleNode = Some titleChildren →
  childAt 1 (findNodeByClassName (parse T htmlString) "block__heading") = Some dateNode →
  node_children dateNode = Some dateChildren →
  responsive P (Some {| client := assets apiClient |}) →
  (∀ d, ∃ added, addContentItem apiClient d = Fulfilled added) →
  (∀ d, upsertLanguageVariant apiClient d = Fulfilled tt) →
  result (run T P s apiClient) = Fulfilled tt.
Proof.
  intros Hpage Hbody Htitle Htc Hdate Hdc Hresp Hadd Hupsert.
  destruct (traverse_always_fulfilled (transformNodeToMapiRichText P)
              (Some {| client := assets apiClient |})
              (transformNodeToMapiRichText_fulfilled P _ Hresp) s body)
    as [out Hout].
  assert (Hhtml : outcome (transformedRichText P s body
                             (Some {| client := assets apiClient |}))
                  = Fulfilled (join EmptyString out)).
  { apply transformedRichText_fulfilled. by exists out. }
  unfold run. run_migration_steps. rewrite Hpage. run_migration_steps.
  rewrite Hbody, Htitle. run_migration_steps. rewrite Htc, Hdate.
  run_migration_steps. rewrite Hdc. run_migration_steps. rewrite Hhtml.
  run_migration_steps.
  match goal with
  | |- context [addContentItem apiClient ?item] =>
      destruct (Hadd item) as [added ->]
  end.
  run_migration_steps. apply Hupsert.
Qed.

Lemma run_survives_image_failures_witness :
  responsive offlinePlatform (Some {| client := failingClient |})
  ∧ result (run (sampleTools samplePage) offlinePlatform inOrder
              (sampleApiClient failingClient))
    = Fulfilled tt.
Proof.
  assert (Hresp : responsive offlinePlatform (Some {| client := failingClient |})).
  { split; [done|]. by intros c [= <-]. }
  split; [exact Hresp|].
  refine (run_survives_image_failures (sampleTools samplePage) offlinePlatform inOrder
            (sampleApiClient failingClient) "<html>" _ _ _ _ _
            eq_refl eq_refl eq_refl eq_refl eq_refl eq_refl Hresp _ _).
  - intros d. by eexists.
  - done.
Defined.

(** ** [migration.run], registry pipeline *)

(** X9.  In the registry migration one failed image upload, anywhere in
    the parsed markup, rejects [run] before any item is created: the
    trace holds traversal events only. *)
Theorem run_registry_image_failure (T : Tools) (s : Sched) (apiClient : ApiClient)
    (attributes : Attributes) (tree : DomNode) (e : Thrown) :
  truthy (get attributes "src") = true →
  uploadAssetFromUrl (assets apiClient)
    (assetFromUrlRequest (template (get attributes "src")) (get attributes "alt"))
  = Rejected e →
  occursIn (DomHtmlNode "img" attributes []) tree →
  tree ∈ parseHTML T htmlInput →
  (∃ e', result (run_registry T s apiClient) = Rejected e')
  ∧ ∀ ev, ev ∈ trace (run_registry T s apiClient) → ∃ e', ev = Traversal e'.
Proof.
  intros Hsrc Hup Hocc Hin.
  destruct (registry_image_aborts (assets apiClient) attributes tree
              (parseHTML T htmlInput)) with (s := s) as [e' He']; [|done..|].
  { intros joined. exists e.
    by rewrite (img_upload_fails (assets apiClient) (DomHtmlNode "img" attributes [])
                  joined e). }
  unfold transformedRichText_registry in He'.
  unfold run_registry. run_migration_steps. rewrite He'. run_migration_steps.
  split; [by exists e'|].
  intros ev Hev. apply list_elem_of_fmap in Hev as (e'' & -> & _). by exists e''.
Qed.

Lemma run_registry_image_failure_witness :
  (∃ e', result (run_registry (sampleTools samplePage) inOrder
                   (sampleApiClient failingClient)) = Rejected e')
  ∧ ∀ ev, ev ∈ trace (run_registry (sampleTools samplePage) inOrder
                        (sampleApiClient failingClient)) →
          ∃ e', ev = Traversal e'.
Proof.
  refine (run_registry_image_failure (sampleTools samplePage) inOrder
            (sampleApiClient failingClient) [("src", Some "http://x/y/pic.png")]
            picture (ThrownError "SdkError" "503") eq_refl eq_refl _ _).
  - constructor.
  - vm_compute. apply list_elem_of_further, list_elem_of_here.
Defined.

(** X10.  Whatever the parser and the client do, the registry migration
    upserts a language variant only after the traversal was fulfilled and
    the item [POC Rich text] was created; the variant goes under the
    identifier the creation returned, in the language [default], with the
    traversal's string as its only element. *)
Theorem run_registry_upsert_invariant (T : Tools) (s : Sched) (apiClient : ApiClient)
    (d : LanguageVariantData) :
  UpsertLanguageVariant d ∈ trace (run_registry T s apiClient) →
  ∃ html added,
    outcome (nodesToHTMLAsync s (parseHTML T htmlInput) transformers
               (Some (assets apiClient)))
    = Fulfilled html
    ∧ addContentItem apiClient
        {| item_name := "POC Rich text"; item_type_codename := "rich_text" |}
      = Fulfilled added
    ∧ d = {| byItemId := data_id added;
             byLanguageCodename := "default";
             elements := [ richTextElement html "rich_text_element" ] |}.
Proof.
  unfold run_registry. run_migration_steps.
  destruct (outcome (nodesToHTMLAsync s _ _ _)) as [html| |] eqn:Hhtml;
    run_migration_steps; [|intros H; trace_members H..].
  destruct (addContentItem apiClient _) as [added| |] eqn:Hadd;
    run_migration_steps; [|intros H; trace_members H..].
  intros H. trace_members H. injection H as ->. by exists html, added.
Qed.

Lemma run_registry_upsert_invariant_witness :
  ∃ html added,
    outcome (nodesToHTMLAsync inOrder (parseHTML (sampleTools samplePage) htmlInput)
               transformers (Some (assets (sampleApiClient sampleClient))))
    = Fulfilled html
    ∧ addContentItem (sampleApiClient sampleClient)
        {| item_name := "POC Rich text"; item_type_codename := "rich_text" |}
      = Fulfilled added
    ∧ {| byItemId := "item-1";
         byLanguageCodename := "default";
         elements :=
           [ richTextElement
               ("<p >text</p><figure data-asset-id=" ++ dq ++ "asset-7" ++ dq
                  ++ "></figure>")
               "rich_text_element" ] |}
      = {| byItemId := data_id added;
           byLanguageCodename := "default";
           elements := [ richTextElement html "rich_text_element" ] |}.
Proof.
  apply (run_registry_upsert_invariant (sampleTools samplePage) inOrder
           (sampleApiClient sampleClient)).
  vm_compute. do 2 apply list_elem_of_further. apply list_elem_of_here.
Defined.

(** ** More on the image branch of the callback *)

Ltac image_cases P ctx :=
  unfold transformNodeToMapiRichText;
  match goal with
  | |- context [String.eqb ?tagName "img" && truthy ?src] =>
      let Hguard := fresh "Hguard" in
      destruct (String.eqb tagName "img" && truthy src) eqn:Hguard
  end;
  [ run_async;
    let Hget := fresh "Hget" in
    destruct (axios_get P _) as [?response| |] eqn:Hget; run_async;
    [ let Hurl := fresh "Hurl" in
      destruct (URL_pathname P _) as [?pathname|] eqn:Hurl; run_async;
      [ destruct ctx as [[?c]|]; run_async;
        [ let Hup := fresh "Hup" in
          destruct (uploadBinaryFile _ _) as [?u| |] eqn:Hup; run_async;
          [ let Hadd := fresh "Hadd" in
            destruct (addAsset _ _) as [?r| |] eqn:Hadd; run_async
          | | ]
        | ]
      | ]
    | | ]
  | run_async ].

(** X11.  In the callback, for every node: bytes are uploaded only by an
    [img] with a [src], only with a client, only after the fetch was
    fulfilled, and they are the fetched bytes with their length; an asset
    is registered only after the byte upload was fulfilled, with the
    upload's identifier as its file reference and the upload's file name as
    its title. *)
Theorem image_requests_are_sequenced (P : Platform) (node : DomNode)
    (items : list string) (ctx : option Context) :
  (∀ d, UploadBinaryFile d ∈ events (transformNodeToMapiRichText P node items ctx) →
        isImageWithSrc node = true
        ∧ (∃ c, ctx = Some {| client := c |})
        ∧ ∃ response,
            axios_get P (template (get (node_attributes node) "src")) = Fulfilled response
            ∧ binaryData d = response_data response
            ∧ contentLength d = length (response_data response))
  ∧ (∀ a, AddAsset a ∈ events (transformNodeToMapiRichText P node items ctx) →
          ∃ c d u,
            ctx = Some {| client := c |}
            ∧ UploadBinaryFile d ∈ events (transformNodeToMapiRichText P node items ctx)
            ∧ uploadBinaryFile c d = Fulfilled u
            ∧ file_reference a
              = {| file_reference_id := Some (data_id u);
                   file_reference_type := "internal" |}
            ∧ title a = filename d).
Proof.
  destruct node as [content | tagName attributes children].
  { split; intros ? H; by apply elem_of_nil in H. }
  unfold isImageWithSrc, node_attributes.
  split.
  - intros d. image_cases P ctx; intros H; trace_members H;
      injection H as ->; (split; [done|]); (split; [by eexists|]); by eexists.
  - intros a. image_cases P ctx; intros H; trace_members H;
      injection H as ->; eexists _, _, _; (split; [done|]);
      (split; [apply list_elem_of_further, list_elem_of_here|]); done.
Qed.

Lemma image_requests_are_sequenced_witness :
  ∃ c d u,
    sampleContext = Some {| client := c |}
    ∧ UploadBinaryFile d
      ∈ events (transformNodeToMapiRichText samplePlatform picture [] sampleContext)
    ∧ uploadBinaryFile c d = Fulfilled u
    ∧ file_reference (assetRequest (Some "abc123") "/y/pic.png")
      = {| file_reference_id := Some (data_id u); file_reference_type := "internal" |}
    ∧ title (assetRequest (Some "abc123") "/y/pic.png") = filename d.
Proof.
  apply (proj2 (image_requests_are_sequenced samplePlatform picture [] sampleContext)).
  vm_compute. do 2 apply list_elem_of_further. apply list_elem_of_here.
Defined.

(** X12.  The callback reports an error only when a step of the image
    branch failed: whenever [console.error] is called, the node is an
    [img] with a [src], the error reported is the one the fetch, the URL
    constructor, the byte upload or the asset registration failed with,
    and the callback is fulfilled with the placeholder. *)
Theorem console_error_means_image_failure (P : Platform) (node : DomNode)
    (items : list string) (ctx : option Context) (label : string) (e : Thrown) :
  ConsoleError label e ∈ events (transformNodeToMapiRichText P node items ctx) →
  isImageWithSrc node = true
  ∧ label = "Error processing image node:"
  ∧ imageFailure P ctx (template (get (node_attributes node) "src")) e
  ∧ outcome (transformNodeToMapiRichText P node items ctx) = Fulfilled ["<img/>"].
Proof.
  destruct node as [content | tagName attributes children].
  { intros H. by apply elem_of_nil in H. }
  unfold isImageWithSrc, node_attributes.
  image_cases P ctx; intros H; trace_members H; injection H as -> ->;
    apply andb_true_iff in Hguard as [->%String.eqb_eq _];
    (split; [done|]); (split; [done|]); (split; [|done]).
  - by eapply registration_fails.
  - by eapply upload_fails.
  - by eapply url_fails.
  - by apply fetch_fails.
Qed.

Lemma console_error_means_image_failure_witness :
  isImageWithSrc picture = true
  ∧ "Error processing image node:" = "Error processing image node:"
  ∧ imageFailure offlinePlatform sampleContext
      (template (get (node_attributes picture) "src"))
      (ThrownError "AxiosError" "ECONNREFUSED")
  ∧ outcome (transformNodeToMapiRichText offlinePlatform picture [] sampleContext)
    = Fulfilled ["<img/>"].
Proof.
  apply (console_error_means_image_failure offlinePlatform picture [] sampleContext).
  vm_compute. apply list_elem_of_further, list_elem_of_here.
Defined.

(** X13.  Without a context the optional chains of the image branch
    short-circuit: once the fetch and the URL constructor succeed, nothing
    is uploaded or registered, no error is reported, and the marker carries
    the text [undefined] as its asset identifier. *)
Theorem image_marker_without_context (P : Platform) (attributes : Attributes)
    (children : list DomNode) (items : list string) (response : AxiosResponse)
    (pathname : string) :
  truthy (get attributes "src") = true →
  axios_get P (template (get attributes "src")) = Fulfilled response →
  URL_pathname P (template (get attributes "src")) = Some pathname →
  transformNodeToMapiRichText P (DomHtmlNode "img" attributes children) items None
  = MkAsync
      (Fulfilled [ "<figure data-asset-id=" ++ dq ++ "undefined" ++ dq ++ "></figure>" ])
      [AxiosGet (template (get attributes "src"))].
Proof. apply image_without_context. Qed.

Lemma image_marker_without_context_witness :
  transformNodeToMapiRichText samplePlatform picture [] None
  = MkAsync
      (Fulfilled [ "<figure data-asset-id=" ++ dq ++ "undefined" ++ dq ++ "></figure>" ])
      [AxiosGet "http://x/y/pic.png"].
Proof.
  exact (image_marker_without_context samplePlatform
           [("src", Some "http://x/y/pic.png")] [] [] sampleResponse "/y/pic.png"
           eq_refl eq_refl eq_refl).
Defined.

(** ** More on [transformers.img] *)

(** X14.  [transformers.img] is fulfilled only with the marker of an
    identifier the storage client returned: the [resolve] that follows a
    failed upload, with an [undefined] identifier, never takes effect, and
    without a client or a [src] nothing is resolved at all. *)
Theorem img_marker_only_from_client (node : DomNode) (joined : string)
    (apiClient : option ManagementClient) (html : string) :
  outcome (transformers_img node joined apiClient) = Fulfilled html →
  ∃ c r,
    apiClient = Some c
    ∧ truthy (get (node_attributes node) "src") = true
    ∧ uploadAssetFromUrl c
        (assetFromUrlRequest (template (get (node_attributes node) "src"))
           (get (node_attributes node) "alt"))
      = Fulfilled r
    ∧ html = "<figure data-asset-id=" ++ dq ++ data_id r ++ dq ++ "></figure>".
Proof.
  unfold transformers_img, assetFromUrlRequest.
  destruct apiClient as [c|]; [|done].
  destruct (truthy (get (node_attributes node) "src")); [|done].
  cbv beta iota zeta delta [negb].
  destruct (uploadAssetFromUrl c _) as [r| |] eqn:Hup; [|done..].
  intros [= <-]. by exists c, r.
Qed.

Lemma img_marker_only_from_client_witness :
  ∃ c r,
    Some sampleClient = Some c
    ∧ truthy (get (node_attributes picture) "src") = true
    ∧ uploadAssetFromUrl c
        (assetFromUrlRequest (template (get (node_attributes picture) "src"))
           (get (node_attributes picture) "alt"))
      = Fulfilled r
    ∧ "<figure data-asset-id=" ++ dq ++ "asset-7" ++ dq ++ "></figure>"
      = "<figure data-asset-id=" ++ dq ++ data_id r ++ dq ++ "></figure>".
Proof.
  exact (img_marker_only_from_client picture EmptyString (Some sampleClient) _ eq_refl).
Defined.

(** X15.  [transformers.img] sends at most one request, and none without
    a client or a [src]: the request carries the [src] as the URL, the
    same file name as binary file name and as asset title, and one
    description in the language [default], the [alt] text of the node or
    [No description] when [alt] is absent or empty. *)
Theorem img_single_request (node : DomNode) (joined : string)
    (apiClient : option ManagementClient) (ev : Event) :
  ev ∈ events (transformers_img node joined apiClient) →
  ∃ d,
    ev = UploadAssetFromUrl d
    ∧ events (transformers_img node joined apiClient) = [ev]
    ∧ is_Some apiClient
    ∧ truthy (get (node_attributes node) "src") = true
    ∧ fileUrl d = template (get (node_attributes node) "src")
    ∧ asset_title d = binaryFile_filename d
    ∧ asset_descriptions d
      = [ {| language_codename := "default";
             description :=
               match get (node_attributes node) "alt" with
               | Some (String c alt) => String c alt
               | _ => "No description"
               end |} ].
Proof.
  unfold transformers_img.
  destruct apiClient as [c|]; [|by intros H%elem_of_nil].
  destruct (truthy (get (node_attributes node) "src")); [|by intros H%elem_of_nil].
  cbv beta iota zeta delta [negb].
  destruct (uploadAssetFromUrl c _) as [r| |]; cbv beta iota zeta delta [events];
    intros ->%list_elem_of_singleton; eexists; repeat (split; [done|]); done.
Qed.

Lemma img_single_request_witness :
  ∃ d,
    UploadAssetFromUrl (assetFromUrlRequest "http://x/y/pic.png" None)
    = UploadAssetFromUrl d
    ∧ events (transformers_img picture EmptyString (Some failingClient))
      = [UploadAssetFromUrl (assetFromUrlRequest "http://x/y/pic.png" None)]
    ∧ is_Some (Some failingClient)
    ∧ truthy (get (node_attributes picture) "src") = true
    ∧ fileUrl d = template (get (node_attributes picture) "src")
    ∧ asset_title d = binaryFile_filename d
    ∧ asset_descriptions d
      = [ {| language_codename := "default"; description := "No description" |} ].
Proof.
  apply (img_single_request picture EmptyString (Some failingClient)).
  vm_compute. apply list_elem_of_here.
Defined.

(** ** File names, again *)

Lemma or_else_filename (path placeholder : string) :
  placeholder ≠ EmptyString → hasSlash placeholder = false →
  or_else (pop (split slash path)) placeholder ≠ EmptyString
  ∧ hasSlash (or_else (pop (split slash path)) placeholder) = false.
Proof.
  intros Hne Hslash. rewrite or_else_finalSegment.
  destruct (finalSegment_spec path) as [Hseg _].
  destruct (String.eqb (finalSegment path) EmptyString) eqn:Heq; [done|].
  by apply String.eqb_neq in Heq.
Qed.

(** X16.  Whatever the URL, the file name either pipeline gives to the
    storage client is never empty and never contains a slash. *)
Theorem filenames_are_plain (P : Platform) (node : DomNode) (items : list string)
    (ctx : option Context) (joined : string) (apiClient : option ManagementClient) :
  (∀ d, UploadBinaryFile d ∈ events (transformNodeToMapiRichText P node items ctx) →
        filename d ≠ EmptyString ∧ hasSlash (filename d) = false)
  ∧ (∀ d, UploadAssetFromUrl d ∈ events (transformers_img node joined apiClient) →
          binaryFile_filename d ≠ EmptyString
          ∧ hasSlash (binaryFile_filename d) = false).
Proof.
  split.
  - intros d. destruct node as [content | tagName attributes children];
      [by intros H%elem_of_nil|].
    image_cases P ctx; intros H; trace_members H; injection H as ->;
      by apply or_else_filename.
  - intros d. unfold transformers_img.
    destruct apiClient as [c|]; [|by intros H%elem_of_nil].
    destruct (truthy (get (node_attributes node) "src")); [|by intros H%elem_of_nil].
    cbv beta iota zeta delta [negb].
    destruct (uploadAssetFromUrl c _) as [r| |]; cbv beta iota zeta delta [events];
      intros [= ->]%list_elem_of_singleton; by apply or_else_filename.
Qed.

Lemma filenames_are_plain_witness :
  filename (binaryFileRequest sampleResponse "/y/pic.png") ≠ EmptyString
  ∧ hasSlash (filename (binaryFileRequest sampleResponse "/y/pic.png")) = false.
Proof.
  apply (proj1 (filenames_are_plain samplePlatform picture [] sampleContext
                  EmptyString None)).
  vm_compute. apply list_elem_of_further, list_elem_of_here.
Defined.

(** ** More on the attribute filter *)

Lemma string_app_empty (s1 s2 : string) : s1 ++ s2 = EmptyString → s1 = EmptyString.
Proof. by destruct s1. Qed.

Lemma attributeToken_nonempty (entry : string * option string) :
  attributeToken entry ≠ EmptyString.
Proof.
  destruct entry as [key value]. unfold attributeToken.
  intros H. pose proof (string_app_empty _ _ H) as ->. discriminate H.
Qed.

(** X17.  The attribute text is empty exactly when no key of the mapping
    is on the allow-list. *)
Theorem serializeKnownAttributes_empty (attributes : Attributes) :
  serializeKnownAttributes attributes = EmptyString
  ↔ ∀ key value, (key, value) ∈ attributes → key ∉ allowedRichTextElementAttributes.
Proof.
  unfold serializeKnownAttributes, join, knownAttributes. split.
  - intros Hempty key value Hin Hkey.
    assert (Hkept : (key, value)
                    ∈ List.filter
                        (λ '(key, _), includes allowedRichTextElementAttributes key)
                        attributes).
    { apply list_elem_of_In, filter_In. split; [by apply list_elem_of_In|].
      by apply includes_elem_of. }
    destruct (List.filter _ attributes) as [|entry rest]; [by apply elem_of_nil in Hkept|].
    apply (attributeToken_nonempty entry).
    destruct rest as [|next rest]; [done|].
    change (attributeToken entry ++ " "
              ++ String.concat " " (map attributeToken (next :: rest)) = EmptyString)
      in Hempty.
    by eapply string_app_empty.
  - intros Hall.
    assert (Hnone : List.filter
                      (λ '(key, _), includes allowedRichTextElementAttributes key)
                      attributes = []).
    { induction attributes as [|[key value] rest IH]; [done|].
      cbn [List.filter].
      destruct (includes allowedRichTextElementAttributes key) eqn:Hkey.
      - apply includes_elem_of in Hkey. exfalso.
        apply (Hall key value); [apply list_elem_of_here | done].
      - apply IH. intros key' value' Hin. apply (Hall key' value'). by right. }
    by rewrite Hnone.
Qed.

Lemma get_knownAttributes (attributes : Attributes) (key : string) :
  includes allowedRichTextElementAttributes key = true →
  get (knownAttributes attributes) key = get attributes key.
Proof.
  intros Hkey. unfold knownAttributes.
  induction attributes as [|[k v] rest IH]; [done|].
  cbn [List.filter get]. destruct (String.eqb k key) eqn:Heq.
  - apply String.eqb_eq in Heq as ->. rewrite Hkey. cbn [get].
    by rewrite String.eqb_refl.
  - destruct (includes allowedRichTextElementAttributes k); [|done].
    cbn [get]. by rewrite Heq.
Qed.

Lemma bind_ext {A B} (m : Async A) (k k' : A → Async B) :
  (∀ a, k a = k' a) → m ≫= k = m ≫= k'.
Proof.
  intros Hk. unfold mbind, Async_bind. destruct (outcome m); [|done..].
  by rewrite Hk.
Qed.

Lemma transform_withKnownAttributes (P : Platform) tagName attributes children
    children' items (context : option Context) :
  transformNodeToMapiRichText P (DomHtmlNode tagName (knownAttributes attributes) children')
    items context
  = transformNodeToMapiRichText P (DomHtmlNode tagName attributes children) items context.
Proof.
  unfold transformNodeToMapiRichText.
  rewrite (get_knownAttributes attributes "src") by reflexivity.
  unfold serializeKnownAttributes. fold (knownAttributes (knownAttributes attributes)).
  unfold knownAttributes at 1 2. by rewrite filter_twice.
Qed.

Lemma nodeTask_withKnownAttributes (P : Platform) (context : option Context)
    (node : DomNode) :
  ∀ s, nodeTask (transformNodeToMapiRichText P) context s (withKnownAttributes node)
       = nodeTask (transformNodeToMapiRichText P) context s node.
Proof.
  induction node as [content | tagName attributes children IH] using DomNode_ind;
    intros s; [done|].
  cbn [withKnownAttributes]. rewrite !nodeTask_element.
  assert (Htasks : ∀ ss,
             tasksOf (nodeTask (transformNodeToMapiRichText P) context) ss
               (map withKnownAttributes children)
             = tasksOf (nodeTask (transformNodeToMapiRichText P) context) ss children).
  { induction IH as [|child children Hchild _ IHchildren]; intros ss; [done|].
    simpl. by rewrite Hchild, IHchildren. }
  rewrite Htasks. apply bind_ext. intros items.
  apply transform_withKnownAttributes.
Qed.

(** X18.  Attributes off the allow-list ([class], [style], [alt], event
    handlers) play no part in the callback pipeline: removing them from
    every node of a fragment changes neither the rich text nor a single
    request. *)
Theorem unknown_attributes_are_inert (P : Platform) (s : Sched) (nodes : list DomNode)
    (context : option Context) :
  transformedRichText P s (map withKnownAttributes nodes) context
  = transformedRichText P s nodes context.
Proof.
  unfold transformedRichText, traverseAndTransformNodesAsync. do 3 f_equal.
  generalize (subs s). induction nodes as [|node nodes IH]; intros ss; [done|].
  simpl. by rewrite nodeTask_withKnownAttributes, IH.
Qed.

(** ** One fetch per image *)

Lemma fetches_app (log1 log2 : list Event) :
  fetches (log1 ++ log2) = fetches log1 + fetches log2.
Proof. apply sum_list_with_app. Qed.

Lemma completionOrder_Permutation (n : nat) (o : list nat) :
  completionOrder n o ≡ₚ seq 0 n.
Proof.
  apply NoDup_Permutation.
  - unfold completionOrder. apply NoDup_app. split; [apply NoDup_remove_dups|].
    split; [|apply NoDup_list_difference, NoDup_seq].
    intros i Hi [_ Hnot]%list_elem_of_difference. done.
  - apply NoDup_seq.
  - intros i. rewrite completionOrder_elem_of, elem_of_seq. lia.
Qed.

Lemma complete_fetches {A} (tasks : list (Async A)) :
  ∀ (l : list nat) (acc : Async (list (option A))),
    fetches (events (foldl (complete tasks) acc l))
    = fetches (events acc)
      + sum_list_with (λ i, from_option (λ t, fetches (events t)) 0 (tasks !! i)) l.
Proof.
  induction l as [|j l IH]; intros acc; simpl; [lia|].
  rewrite IH. unfold complete. destruct (tasks !! j) as [t|]; simpl; [|lia].
  rewrite fetches_app. lia.
Qed.

Lemma sum_over_positions {A} (g : A → nat) (tasks : list A) :
  ∀ before : list A,
    sum_list_with (λ i, from_option g 0 ((before ++ tasks)%list !! i))
      (seq (length before) (length tasks))
    = sum_list_with g tasks.
Proof.
  induction tasks as [|t tasks IH]; intros before; [done|].
  simpl. rewrite list_lookup_middle by done. simpl. f_equal.
  specialize (IH (before ++ [t])%list). rewrite length_app in IH. simpl in IH.
  rewrite <- (assoc_L (++)) in IH. simpl in IH.
  by rewrite Nat.add_1_r in IH.
Qed.

(** The fetches of a join are those of its tasks, whatever the order. *)
Lemma promiseAll_fetches {A} (o : list nat) (tasks : list (Async A)) :
  fetches (events (promiseAll o tasks)) = sum_list_with (λ t, fetches (events t)) tasks.
Proof.
  unfold promiseAll. cbn [events]. rewrite complete_fetches. cbn [events].
  rewrite (completionOrder_Permutation (length tasks) o).
  apply (sum_over_positions (λ t, fetches (events t)) tasks []).
Qed.

Lemma fetches_fmap {A B} (f : A → B) (m : Async A) :
  fetches (events (f <$> m)) = fetches (events m).
Proof.
  unfold fmap, Async_fmap, mbind, Async_bind. destruct (outcome m); cbn [events]; [|done..].
  rewrite fetches_app. unfold mret, Async_ret, resolved. cbn [events]. unfold fetches. simpl. lia.
Qed.

Lemma fetches_bind {A B} (m : Async A) (k : A → Async B) (a : A) :
  outcome m = Fulfilled a →
  fetches (events (m ≫= k)) = fetches (events m) + fetches (events (k a)).
Proof.
  intros Hm. unfold mbind, Async_bind. rewrite Hm. cbn [events]. apply fetches_app.
Qed.

(** The callback fetches once for a node that takes the image branch, and
    never otherwise, whatever the platform and the client answer. *)
Lemma transform_fetches (P : Platform) (node : DomNode) (items : list string)
    (ctx : option Context) :
  fetches (events (transformNodeToMapiRichText P node items ctx))
  = if isImageWithSrc node then 1 else 0.
Proof.
  destruct node as [content | tagName attributes children]; [done|].
  unfold isImageWithSrc. image_cases P ctx; reflexivity.
Qed.

Lemma nodeTask_fetches (P : Platform) (ctx : option Context) :
  responsive P ctx →
  ∀ node s,
    fetches (events (nodeTask (transformNodeToMapiRichText P) ctx s node))
    = imagesOf node.
Proof.
  intros Hresp node.
  induction node as [content | tagName attributes children IH] using DomNode_ind;
    intros s.
  - apply transform_fetches.
  - destruct (nodeTask_always_fulfilled (transformNodeToMapiRichText P) ctx
                (transformNodeToMapiRichText_fulfilled P ctx Hresp)
                (DomHtmlNode tagName attributes children)) as [v Hv].
    apply (nodeTask_scheduleFree _ _ _ inOrder s) in Hv.
    rewrite nodeTask_element in Hv |- *.
    apply outcome_bind_fulfilled in Hv as (items & Hitems & _).
    rewrite (fetches_bind _ _ items Hitems), fetches_fmap, promiseAll_fetches,
      transform_fetches.
    cbn [imagesOf]. rewrite Nat.add_comm. f_equal.
    generalize (subs s). clear -IH.
    induction IH as [|child children Hchild _ IHchildren]; intros ss; [done|].
    simpl. by rewrite Hchild, IHchildren.
Qed.

(** X19.  The callback pipeline fetches every image on its own: when every
    external call settles, the number of fetches of a traversal is the
    number of [img] nodes with a [src] in the fragment, at every depth and
    under every schedule; the same URL twice is fetched twice. *)
Theorem one_fetch_per_image (P : Platform) (ctx : option Context) (s : Sched)
    (nodes : list DomNode) :
  responsive P ctx →
  fetches (events (transformedRichText P s nodes ctx)) = sum_list_with imagesOf nodes.
Proof.
  intros Hresp. unfold transformedRichText, traverseAndTransformNodesAsync.
  rewrite !fetches_fmap, promiseAll_fetches.
  generalize (subs s). induction nodes as [|node nodes IH]; intros ss; [done|].
  simpl. by rewrite (nodeTask_fetches P ctx Hresp), IH.
Qed.

Lemma one_fetch_per_image_witness :
  fetches (events (transformedRichText samplePlatform secondFirst
                     [picture; DomHtmlNode "p" [] [picture]] sampleContext))
  = 2.
Proof.
  refine (one_fetch_per_image samplePlatform sampleContext secondFirst
            [picture; DomHtmlNode "p" [] [picture]] _).
  split; [done|]. by intros c [= <-].
Defined.

(** ** [migration.run], callback pipeline: the whole path *)

(** X20.  When every step succeeds, [run] loads the page, then runs the
    traversal of the children of the content block, then creates an item
    of type [article] named after the title, then upserts its variant, in
    this order.  The title is the text the first child of the heading
    block starts with, the date the text its second child starts with;
    a child that does not start with a text node gives [Title not found],
    respectively [Date not found]. *)
Theorem run_success (T : Tools) (P : Platform) (s : Sched) (apiClient : ApiClient)
    (htmlString : string) (body : list DomNode) (titleNode dateNode : DomNode)
    (titleChildren dateChildren : list DomNode) (html : string) (added : IdResponse) :
  let title := match titleChildren !! 0 with
               | Some (DomTextNode content) => content
               | _ => "Title not found"
               end in
  let date := match dateChildren !! 0 with
              | Some (DomTextNode content) => content
              | _ => "Date not found"
              end in
  let item := {| item_name := title; item_type_codename := "article" |} in
  let variant :=
    {| byItemId := data_id added;
       byLanguageCodename := "default";
       elements :=
         [ textElement title "title";
           dateTimeElement date "UTC" "publishing_date";
           richTextElement html "content" ] |} in
  page_content T pageUrl = Fulfilled htmlString →
  childrenOf (findNodeByClassName (parse T htmlString) "content__body") = Some body →
  childAt 0 (findNodeByClassName (parse T htmlString) "block__heading") = Some titleNode →
  node_children titleNode = Some titleChildren →
  childAt 1 (findNodeByClassName (parse T htmlString) "block__heading") = Some dateNode →
  node_children dateNode = Some dateChildren →
  outcome (transformedRichText P s body (Some {| client := assets apiClient |}))
  = Fulfilled html →
  addContentItem apiClient item = Fulfilled added →
  upsertLanguageVariant apiClient variant = Fulfilled tt →
  run T P s apiClient
  = MkMigration (Fulfilled tt)
      (FetchHtml pageUrl
         :: (Traversal <$> events (transformedRichText P s body
                                     (Some {| client := assets apiClient |})))
         ++ [AddContentItem item; UpsertLanguageVariant variant]).
Proof.
  intros title date item variant Hpage Hbody Htitle Htc Hdate Hdc Hhtml Hadd Hupsert.
  subst title date item variant.
  unfold run. run_migration_steps. rewrite Hpage. run_migration_steps.
  rewrite Hbody, Htitle. run_migration_steps. rewrite Htc, Hdate.
  run_migration_steps. rewrite Hdc. run_migration_steps. rewrite Hhtml.
  run_migration_steps. rewrite Hadd. run_migration_steps. rewrite Hupsert.
  reflexivity.
Qed.

(** A heading whose first child holds an element, not a text. *)
Lemma run_success_witness :
  run (sampleTools
         [ DomHtmlNode "div" [("class", Some "block__heading")]
             [ DomHtmlNode "h1" [] [DomHtmlNode "a" [] [DomTextNode "A robot arm"]];
               DomHtmlNode "time" [] [DomTextNode "2024-05-01"] ];
           sampleBody ])
    offlinePlatform inOrder (sampleApiClient sampleClient)
  = MkMigration (Fulfilled tt)
      [ FetchHtml pageUrl;
        Traversal (AxiosGet "http://x/y/pic.png");
        Traversal (ConsoleError "Error processing image node:"
                     (ThrownError "AxiosError" "ECONNREFUSED"));
        AddContentItem
          {| item_name := "Title not found"; item_type_codename := "article" |};
        UpsertLanguageVariant
          {| byItemId := "item-1";
             byLanguageCodename := "default";
             elements :=
               [ textElement "Title not found" "title";
                 dateTimeElement "2024-05-01" "UTC" "publishing_date";
                 richTextElement "<p >hello</p><img/>" "content" ] |} ].
Proof.
  exact (run_success
           (sampleTools
              [ DomHtmlNode "div" [("class", Some "block__heading")]
                  [ DomHtmlNode "h1" [] [DomHtmlNode "a" [] [DomTextNode "A robot arm"]];
                    DomHtmlNode "time" [] [DomTextNode "2024-05-01"] ];
                sampleBody ])
           offlinePlatform inOrder (sampleApiClient sampleClient) "<html>"
           [DomHtmlNode "p" [("class", Some "lead")] [DomTextNode "hello"]; picture]
           (DomHtmlNode "h1" [] [DomHtmlNode "a" [] [DomTextNode "A robot arm"]])
           (DomHtmlNode "time" [] [DomTextNode "2024-05-01"])
           [DomHtmlNode "a" [] [DomTextNode "A robot arm"]]
           [DomTextNode "2024-05-01"]
           "<p >hello</p><img/>" {| data_id := "item-1" |}
           eq_refl eq_refl eq_refl eq_refl eq_refl eq_refl eq_refl eq_refl eq_refl).
Defined.
